(** * A shallow embedding of the URL-derivation and playlist-repair core
    of tbf (src/util.rs, src/twitch/vods.rs, src/twitch/clips.rs).

    Strings are byte strings ([String.string]) holding the UTF-8 encoding
    of a Rust [str]; indices are byte indices, as in Rust.  Rust [i64]
    values are modelled as [Z].  Third-party library functions whose
    behaviour the claims do not depend on (the m3u8 parser, the serde
    parsers, the natural sort) are Section variables. *)

From Stdlib Require Import ZArith Lia List Bool Ascii String.
From Stdlib Require Import Numbers.DecimalString Sorting.Sorted Sorting.Permutation.
From Stdlib Require Numbers.DecimalPos.
From Stdlib Require Structures.OrderedTypeEx.
Import ListNotations.
Open Scope string_scope.
Open Scope Z_scope.

(** ** String helpers mirroring [str] methods *)

Module Str.

(** [str::contains]: substring test. *)
Fixpoint contains (pat s : string) : bool :=
  if String.prefix pat s then true
  else match s with
       | EmptyString => false
       | String _ r => contains pat r
       end.

(** [str::ends_with]. *)
Definition ends_with (suf s : string) : bool :=
  (String.length suf <=? String.length s)%nat &&
  String.eqb (substring (String.length s - String.length suf)
                        (String.length suf) s) suf.

(** [char::is_ascii_digit]. *)
Definition is_digit (c : ascii) : bool :=
  let n := nat_of_ascii c in ((48 <=? n) && (n <=? 57))%nat.

Definition digit_val (c : ascii) : Z := Z.of_nat (nat_of_ascii c) - 48.

(** Decimal rendering of an [i64] by [format!("{}")]. *)
Definition of_Z (x : Z) : string := NilEmpty.string_of_int (Z.to_int x).

Fixpoint sforall (f : ascii -> bool) (s : string) : bool :=
  match s with
  | EmptyString => true
  | String c r => f c && sforall f r
  end.

(** [RE_UNIX.is_match]: the regex [^\d*$] (ASCII digits). *)
Definition all_digits (s : string) : bool := sforall is_digit s.

End Str.

(** ** [parse_timestamp] (src/util.rs) *)

Module Timestamp.

(** A parser over the remaining input, as the [time] crate's
    [ParsedItem] chain. *)
Definition Parser (A : Type) := string -> option (A * string).

Definition ret {A} (a : A) : Parser A := fun s => Some (a, s).
Definition bind {A B} (p : Parser A) (f : A -> Parser B) : Parser B :=
  fun s => match p s with
           | Some (a, r) => f a r
           | None => None
           end.
Notation "x <-- p ;; k" := (bind p (fun x => k))
  (at level 61, p at next level, right associativity).

Definition pfail {A} : Parser A := fun _ => None.
Definition guard (b : bool) : Parser unit := if b then ret tt else pfail.

Definition any_char (ok : ascii -> bool) : Parser ascii :=
  fun s => match s with
           | String c r => if ok c then Some (c, r) else None
           | EmptyString => None
           end.

Definition lit (c : ascii) : Parser unit :=
  fun s => match s with
           | String c' r => if Ascii.eqb c c' then Some (tt, r) else None
           | EmptyString => None
           end.

Definition lits (w : string) : Parser unit :=
  fun s => if String.prefix w s
           then Some (tt, substring (String.length w)
                                    (String.length s - String.length w) s)
           else None.

Definition opt {A} (p : Parser A) : Parser (option A) :=
  fun s => match p s with
           | Some (a, r) => Some (Some a, r)
           | None => Some (None, s)
           end.

(** [exactly_n_digits]: exactly [n] ASCII digits, read as a number. *)
Fixpoint digits_acc (n : nat) (acc : Z) : Parser Z :=
  match n with
  | O => ret acc
  | S n' => d <-- any_char Str.is_digit ;; digits_acc n' (acc * 10 + Str.digit_val d)
  end.
Definition digits (n : nat) : Parser Z := digits_acc n 0.

Fixpoint skip_digits (s : string) : string :=
  match s with
  | String c r => if Str.is_digit c then skip_digits r else s
  | EmptyString => EmptyString
  end.

(** The whole input must be consumed ([UnexpectedTrailingCharacters]). *)
Definition run {A} (p : Parser A) (s : string) : option A :=
  match p s with
  | Some (a, EmptyString) => Some a
  | _ => None
  end.

(** [\[year\]] with default modifiers (no [large-dates]): an optional
    sign, then exactly four digits. *)
Definition year : Parser Z :=
  sg <-- opt (any_char (fun c => Ascii.eqb c "+"%char || Ascii.eqb c "-"%char)) ;;
  y <-- digits 4 ;;
  match sg with
  | Some c => if Ascii.eqb c "-"%char then ret (- y) else ret y
  | None => ret y
  end.

Record DT := mkDT { dt_year : Z; dt_month : Z; dt_day : Z;
                    dt_hour : Z; dt_minute : Z; dt_second : Z }.

Definition is_leap (y : Z) : bool :=
  ((y mod 4 =? 0) && negb (y mod 100 =? 0)) || (y mod 400 =? 0).

Definition days_in_month (y m : Z) : Z :=
  if (m =? 2) then (if is_leap y then 29 else 28)
  else if (m =? 4) || (m =? 6) || (m =? 9) || (m =? 11) then 30
  else 31.

(** Range checks of [Date::from_calendar_date] and [Time::from_hms]. *)
Definition valid (d : DT) : bool :=
  (-9999 <=? dt_year d) && (dt_year d <=? 9999) &&
  (1 <=? dt_month d) && (dt_month d <=? 12) &&
  (1 <=? dt_day d) && (dt_day d <=? days_in_month (dt_year d) (dt_month d)) &&
  (0 <=? dt_hour d) && (dt_hour d <=? 23) &&
  (0 <=? dt_minute d) && (dt_minute d <=? 59) &&
  (0 <=? dt_second d) && (dt_second d <=? 59).

(** Days since 1970-01-01 of a proleptic Gregorian date. *)
Definition days_from_civil (y m d : Z) : Z :=
  let y' := if m <=? 2 then y - 1 else y in
  let era := y' / 400 in
  let yoe := y' - era * 400 in
  let mp := if m >? 2 then m - 3 else m + 9 in
  let doy := (153 * mp + 2) / 5 + d - 1 in
  let doe := yoe * 365 + yoe / 4 - yoe / 100 + doy in
  era * 146097 + doe - 719468.

(** [PrimitiveDateTime::assume_utc().unix_timestamp()]. *)
Definition unix_timestamp (d : DT) : Z :=
  days_from_civil (dt_year d) (dt_month d) (dt_day d) * 86400
  + dt_hour d * 3600 + dt_minute d * 60 + dt_second d.

Definition finish (d : DT) : Parser DT := _ <-- guard (valid d) ;; ret d.

(** ["[year]-[month]-[day] [hour]:[minute]:[second]"] *)
Definition date_time_prefix : Parser DT :=
  y <-- year ;; _ <-- lit "-" ;; mo <-- digits 2 ;; _ <-- lit "-" ;;
  d <-- digits 2 ;; _ <-- lit " " ;; h <-- digits 2 ;; _ <-- lit ":" ;;
  mi <-- digits 2 ;; _ <-- lit ":" ;; se <-- digits 2 ;;
  ret (mkDT y mo d h mi se).

Definition format_wo_utc : Parser DT :=
  dt <-- date_time_prefix ;; finish dt.

(** ["[year]-[month]-[day] [hour]:[minute]:[second] UTC"] *)
Definition format_with_utc : Parser DT :=
  dt <-- date_time_prefix ;; _ <-- lits " UTC" ;; finish dt.

(** ["[day]-[month]-[year] [hour]:[minute]"]; the missing second is 0. *)
Definition format_wo_sec : Parser DT :=
  d <-- digits 2 ;; _ <-- lit "-" ;; mo <-- digits 2 ;; _ <-- lit "-" ;;
  y <-- year ;; _ <-- lit " " ;; h <-- digits 2 ;; _ <-- lit ":" ;;
  mi <-- digits 2 ;;
  finish (mkDT y mo d h mi 0).

(** [Rfc3339] parsed into a [PrimitiveDateTime]: the offset is checked
    and then dropped.  (Leap seconds, second = 60, are not modelled.) *)
Definition rfc3339 : Parser DT :=
  y <-- digits 4 ;; _ <-- lit "-" ;; mo <-- digits 2 ;; _ <-- lit "-" ;;
  d <-- digits 2 ;;
  _ <-- any_char (fun c => Ascii.eqb c "T"%char || Ascii.eqb c "t"%char) ;;
  h <-- digits 2 ;; _ <-- lit ":" ;; mi <-- digits 2 ;; _ <-- lit ":" ;;
  se <-- digits 2 ;;
  _ <-- opt (_ <-- lit "." ;; _ <-- any_char Str.is_digit ;;
             fun s => Some (tt, skip_digits s)) ;;
  z <-- opt (any_char (fun c => Ascii.eqb c "Z"%char || Ascii.eqb c "z"%char)) ;;
  _ <-- match z with
        | Some _ => ret tt
        | None =>
            _ <-- any_char (fun c => Ascii.eqb c "+"%char || Ascii.eqb c "-"%char) ;;
            oh <-- digits 2 ;; _ <-- lit ":" ;; om <-- digits 2 ;;
            guard ((oh <=? 23) && (om <=? 59))
        end ;;
  finish (mkDT y mo d h mi se).

(** [str::parse::<i64>] on a string of ASCII digits. *)
Definition parse_i64 (s : string) : option Z :=
  match s with
  | EmptyString => None
  | _ => match run (digits (String.length s)) s with
         | Some v => if v <=? 9223372036854775807 then Some v else None
         | None => None
         end
  end.

Definition parse_utc (p : Parser DT) (s : string) : option Z :=
  option_map unix_timestamp (run p s).

(** [parse_timestamp]: [RE_UNIX] is [^\d*$], [RE_UTC] is [UTC]. *)
Definition parse_timestamp (timestamp : string) : option Z :=
  if Str.all_digits timestamp then parse_i64 timestamp
  else if Str.contains "UTC" timestamp then parse_utc format_with_utc timestamp
  else match parse_utc rfc3339 timestamp with
       | Some r => Some r
       | None => match parse_utc format_wo_utc timestamp with
                 | Some r => Some r
                 | None => parse_utc format_wo_sec timestamp
                 end
       end.

(** The rule list of the specification, read as "first match wins":
    each rule is tried in turn and the first that yields a value is the
    result.  This follows the spec's words; it is compared with
    [parse_timestamp] below. *)
Definition first_some (l : list (option Z)) : option Z :=
  fold_right (fun o acc => match o with Some v => Some v | None => acc end)
             None l.

Definition parse_timestamp_rules (s : string) : option Z :=
  first_some
    [ if Str.all_digits s then parse_i64 s else None;
      if Str.contains "UTC" s then parse_utc format_with_utc s else None;
      parse_utc rfc3339 s;
      parse_utc format_wo_utc s;
      parse_utc format_wo_sec s ].

End Timestamp.

(** ** SHA-1 (the [sha1] crate's [Sha1], used in src/twitch/vods.rs) *)

Module Sha1.

Definition mask32 : Z := 4294967295.
Definition add32 (a b : Z) : Z := (a + b) mod 4294967296.
Definition not32 (x : Z) : Z := Z.lxor x mask32.
Definition rotl (x n : Z) : Z :=
  Z.lor (Z.land (Z.shiftl x n) mask32) (Z.shiftr x (32 - n)).

Definition be_bytes (n : nat) (x : Z) : list Z :=
  map (fun i => Z.land (Z.shiftr x (8 * Z.of_nat (n - 1 - i))) 255) (seq 0 n).

(** Message padding: 0x80, zeros up to 56 mod 64, the 64-bit bit length. *)
Definition pad (msg : list Z) : list Z :=
  let len := List.length msg in
  (msg ++ [128] ++ repeat 0 ((119 - len mod 64) mod 64)%nat
      ++ be_bytes 8 (Z.of_nat len * 8))%list.

Fixpoint words (b : list Z) : list Z :=
  match b with
  | b0 :: b1 :: b2 :: b3 :: r =>
      (b0 * 16777216 + b1 * 65536 + b2 * 256 + b3) :: words r
  | _ => []
  end.

(** Message schedule: w[t] = rotl(w[t-3] ^ w[t-8] ^ w[t-14] ^ w[t-16], 1). *)
Fixpoint schedule (fuel : nat) (w : list Z) : list Z :=
  match fuel with
  | O => w
  | S f =>
      let t := List.length w in
      let x := Z.lxor (Z.lxor (nth (t - 3) w 0) (nth (t - 8) w 0))
                      (Z.lxor (nth (t - 14) w 0) (nth (t - 16) w 0)) in
      schedule f (w ++ [rotl x 1])%list
  end.

Definition round (st : Z * Z * Z * Z * Z) (tw : nat * Z) : Z * Z * Z * Z * Z :=
  let '(a, b, c, d, e) := st in
  let '(t, wt) := tw in
  let '(f, k) :=
    if (t <? 20)%nat then (Z.lor (Z.land b c) (Z.land (not32 b) d), 1518500249)
    else if (t <? 40)%nat then (Z.lxor (Z.lxor b c) d, 1859775393)
    else if (t <? 60)%nat then
      (Z.lor (Z.lor (Z.land b c) (Z.land b d)) (Z.land c d), 2400959708)
    else (Z.lxor (Z.lxor b c) d, 3395469782) in
  let temp := add32 (add32 (add32 (add32 (rotl a 5) f) e) k) wt in
  (temp, a, rotl b 30, c, d).

Definition compress (h : Z * Z * Z * Z * Z) (block : list Z) : Z * Z * Z * Z * Z :=
  let w := schedule 64 (words block) in
  let '(a, b, c, d, e) := fold_left round (combine (seq 0 80) w) h in
  let '(h0, h1, h2, h3, h4) := h in
  (add32 h0 a, add32 h1 b, add32 h2 c, add32 h3 d, add32 h4 e).

Fixpoint blocks (fuel : nat) (m : list Z) : list (list Z) :=
  match fuel with
  | O => []
  | S f => match m with
           | [] => []
           | _ => firstn 64 m :: blocks f (skipn 64 m)
           end
  end.

Definition h_init : Z * Z * Z * Z * Z :=
  (1732584193, 4023233417, 2562383102, 271733878, 3285377520).

Definition digest (msg : list Z) : list Z :=
  let m := pad msg in
  let '(h0, h1, h2, h3, h4) := fold_left compress (blocks (List.length m) m) h_init in
  (be_bytes 4 h0 ++ be_bytes 4 h1 ++ be_bytes 4 h2 ++ be_bytes 4 h3 ++ be_bytes 4 h4)%list.

Definition hex_digit (n : Z) : ascii :=
  if n <? 10 then ascii_of_nat (Z.to_nat (48 + n)) else ascii_of_nat (Z.to_nat (87 + n)).

(** [format!("{:x}")] of the digest: two lowercase hex digits per byte. *)
Fixpoint lower_hex (b : list Z) : string :=
  match b with
  | [] => EmptyString
  | x :: r => String (hex_digit (x / 16)) (String (hex_digit (x mod 16)) (lower_hex r))
  end.

Fixpoint bytes_of (s : string) : list Z :=
  match s with
  | EmptyString => []
  | String c r => Z.of_nat (nat_of_ascii c) :: bytes_of r
  end.

(** [hasher.update(s.as_str()); format!("{:x}", hasher.finalize())] *)
Definition hex_of (s : string) : string := lower_hex (digest (bytes_of s)).

End Sha1.

(** ** Candidate URLs ([bruteforcer] and [exact], src/twitch/vods.rs) *)

Module Vods.

Record TwitchURL := { full_url : string; hash : string; timestamp : Z }.

(** [i64] addition as a release build computes it: modulo 2^64, into
    [-2^63, 2^63). *)
Definition i64_wrap (x : Z) : Z := (x + 2 ^ 63) mod 2 ^ 64 - 2 ^ 63.

(** [a..b] on [i64]: empty when [b <= a]. *)
Definition range_excl (a b : Z) : list Z :=
  map (fun i => a + Z.of_nat i) (seq 0 (Z.to_nat (b - a))).

(** [number1..number2 + 1]: at [number2 = i64::MAX] the addition wraps
    to [i64::MIN] in a release build and the range is empty (a debug
    build panics there instead). *)
Definition range_incl (number1 number2 : Z) : list Z :=
  range_excl number1 (i64_wrap (number2 + 1)).

(** The URL-building loop of [bruteforcer]; [cdn_urls_compiled] is the
    list returned by [compile_cdn_list(flags.cdnfile.clone())], the same
    at each iteration. *)
Definition bruteforce_urls (username : string) (vod number1 number2 : Z)
    (cdn_urls_compiled : list string) : list TwitchURL :=
  flat_map (fun number =>
      let hex := Sha1.hex_of (username ++ "_" ++ Str.of_Z vod ++ "_" ++ Str.of_Z number) in
      map (fun cdn =>
             {| full_url := "https://" ++ cdn ++ "/" ++ substring 0 20 hex ++ "_"
                            ++ username ++ "_" ++ Str.of_Z vod ++ "_" ++ Str.of_Z number
                            ++ "/chunked/index-dvr.m3u8";
                hash := substring 0 20 hex;
                timestamp := number |})
          cdn_urls_compiled)
    (range_incl number1 number2).

(** The hash computed by [exact] and passed to [check_availability]. *)
Definition exact_hash (username : string) (vod number : Z) : string :=
  let hex := Sha1.hex_of (username ++ "_" ++ Str.of_Z vod ++ "_" ++ Str.of_Z number) in
  substring 0 20 hex.

End Vods.

(** ** [compile_cdn_list] (src/util.rs) *)

Module Cdn.

(** What [File::open] and [read_to_string] see at a path: no openable
    file, a file that opens but whose reading fails (a directory, non
    UTF-8 bytes), or a text file with its contents. *)
Inductive FileState := Missing | Unreadable | Text (contents : string).

(** [str::split('/')] and [str::split('\n')]. *)
Fixpoint split_on (sep : ascii) (s : string) : list string :=
  match s with
  | EmptyString => [EmptyString]
  | String c r =>
      match split_on sep r with
      | [] => []
      | x :: xs => if Ascii.eqb c sep then EmptyString :: x :: xs
                   else String c x :: xs
      end
  end.

Fixpoint last_opt (l : list string) : option string :=
  match l with
  | [] => None
  | [x] => Some x
  | _ :: r => last_opt r
  end.

(** [Path::file_name]: the last normal component ([.] is normalised
    away, a final [..] has no file name). *)
Definition file_name (p : string) : option string :=
  match last_opt (filter (fun x => negb (String.eqb x "") && negb (String.eqb x "."))
                         (split_on "/" p)) with
  | Some x => if String.eqb x ".." then None else Some x
  | None => None
  end.

(** [file.rsplitn(2, '.')]: the text before and after the last dot. *)
Fixpoint rsplit_dot (s : string) : option (string * string) :=
  match s with
  | EmptyString => None
  | String c r =>
      match rsplit_dot r with
      | Some (b, a) => Some (String c b, a)
      | None => if Ascii.eqb c "." then Some (EmptyString, r) else None
      end
  end.

(** [Path::extension] ([rsplit_file_at_dot] then [before.and(after)]). *)
Definition extension (p : string) : option string :=
  match file_name p with
  | None => None
  | Some f =>
      match rsplit_dot f with
      | None => None
      | Some (before, after) => if String.eqb before "" then None else Some after
      end
  end.

Definition strip_cr (l : string) : string :=
  if Str.ends_with (String "013"%char EmptyString) l
  then substring 0 (String.length l - 1) l else l.

(** [str::lines]: pieces ended by [\n] lose a trailing [\r]; a final
    empty piece is no line. *)
Fixpoint lines_of_pieces (ps : list string) : list string :=
  match ps with
  | [] => []
  | [x] => if String.eqb x "" then [] else [x]
  | x :: r => strip_cr x :: lines_of_pieces r
  end.
Definition lines (s : string) : list string :=
  lines_of_pieces (split_on "010"%char s).

(** [char::is_whitespace] on a code point: the Unicode [White_Space]
    characters. *)
Definition is_whitespace (cp : Z) : bool :=
  ((9 <=? cp) && (cp <=? 13)) || (cp =? 32) || (cp =? 133) || (cp =? 160) ||
  (cp =? 5760) || ((8192 <=? cp) && (cp <=? 8202)) || (cp =? 8232) || (cp =? 8233) ||
  (cp =? 8239) || (cp =? 8287) || (cp =? 12288).

Definition byte (c : ascii) : Z := Z.of_nat (nat_of_ascii c).

(** A UTF-8 continuation byte, [0x80..0xBF]. *)
Definition cont (c : ascii) : bool := (128 <=? byte c) && (byte c <? 192).

(** [String::retain(|c| !c.is_whitespace())] on the UTF-8 bytes of the
    string: each character (one byte below [0x80], two after a lead byte
    [0xC0..0xDF], three after [0xE0..0xEF]) is decoded and dropped when
    it is whitespace.  No character of four bytes is whitespace, so their
    bytes are kept one at a time.  [read_to_string] only yields valid
    UTF-8; on other bytes the lead byte is kept alone. *)
Fixpoint retain_not_ws (s : string) : string :=
  match s with
  | EmptyString => EmptyString
  | String c r =>
      let b := byte c in
      if b <? 128 then
        if is_whitespace b then retain_not_ws r else String c (retain_not_ws r)
      else
        match r with
        | EmptyString => String c EmptyString
        | String c1 r1 =>
            if (192 <=? b) && (b <? 224) && cont c1 then
              if is_whitespace ((b - 192) * 64 + (byte c1 - 128)) then retain_not_ws r1
              else String c (String c1 (retain_not_ws r1))
            else
              match r1 with
              | EmptyString => String c (retain_not_ws r)
              | String c2 r2 =>
                  if (224 <=? b) && (b <? 240) && cont c1 && cont c2 then
                    if is_whitespace ((b - 224) * 4096 + (byte c1 - 128) * 64 + (byte c2 - 128))
                    then retain_not_ws r2
                    else String c (String c1 (String c2 (retain_not_ws r2)))
                  else String c (retain_not_ws r)
              end
        end
  end.

(** [sort_unstable] on [Vec<String>]: the byte-wise order of [String];
    an unstable sort of a total order has a unique result, so any sorting
    algorithm computes it. *)
Fixpoint insert (x : string) (l : list string) : list string :=
  match l with
  | [] => [x]
  | y :: r => if String.leb x y then x :: y :: r else y :: insert x r
  end.
Fixpoint sort (l : list string) : list string :=
  match l with
  | [] => []
  | x :: r => insert x (sort r)
  end.

(** [Vec::dedup]: consecutive repeats removed. *)
Fixpoint dedup (l : list string) : list string :=
  match l with
  | x :: ((y :: _) as r) => if String.eqb x y then dedup r else x :: dedup r
  | _ => l
  end.

Definition sort_dedup (l : list string) : list string := dedup (sort l).

(** The hostnames that appear in the repository's tests; the built-in
    list [CDN_URLS] itself is in twitch/models.rs, which is not part of
    the sources, so the development below is generic in it and uses this
    list only for concrete runs. *)
Definition sample_cdns : list string :=
  ["d1m7jfoe9zdc1j.cloudfront.net"; "d2vjef5jvl6bfs.cloudfront.net";
   "vod-secure.twitch.tv"].

Section CompileCdnList.

Variable CDN_URLS : list string.
(** [serde_json::from_str], [toml::from_str], [serde_yaml::from_str] into
    [CDNFile]: the [cdns] array, or a parse error. *)
Variables from_json from_toml from_yaml : string -> option (list string).

(** [compile_cdn_list]; [None] is a panic (the [unwrap] of
    [read_to_string]). *)
Definition compile_cdn_list (fs : string -> FileState)
    (cdn_file_path : option string) : option (list string) :=
  let return_vec := CDN_URLS in
  match cdn_file_path with
  | None => Some return_vec
  | Some s =>
      let '(cdn_file, file_extension) :=
        match fs s with
        | Missing => (None, None)
        | st => (Some st, extension s)
        end in
      let read_to_string st :=
        match st with Text t => Some t | _ => None end in
      match file_extension with
      | Some ext =>
          match cdn_file with
          | Some f =>
              match read_to_string f with
              | None => None
              | Some cdn_string =>
                  if String.eqb ext "json" then
                    match from_json cdn_string with
                    | Some j => Some (sort_dedup (return_vec ++ j)%list)
                    | None => Some return_vec
                    end
                  else if String.eqb ext "toml" then
                    match from_toml cdn_string with
                    | Some t => Some (sort_dedup (return_vec ++ t)%list)
                    | None => Some return_vec
                    end
                  else if String.eqb ext "yaml" || String.eqb ext "yml" then
                    match from_yaml cdn_string with
                    | Some y => Some (sort_dedup (return_vec ++ y)%list)
                    | None => Some return_vec
                    end
                  else if String.eqb ext "txt" then
                    Some (sort_dedup (return_vec ++ lines cdn_string)%list)
                  else Some return_vec
              end
          | None => Some return_vec
          end
      | None =>
          match cdn_file with
          | Some f =>
              match read_to_string f with
              | None => None
              | Some cdn_string =>
                  Some (sort_dedup (return_vec ++ lines (retain_not_ws cdn_string))%list)
              end
          | None => Some return_vec
          end
      end
  end.

End CompileCdnList.

End Cdn.

(** ** [fix] (src/twitch/vods.rs) *)

Module Fix.

(** The parts of [m3u8_rs]'s types that [fix] reads or writes.  A
    segment's [duration] is an [f32] that [fix] copies untouched, so it is
    kept as its bit pattern. *)
Inductive MediaPlaylistType := Event | Vod.

Record MediaSegment := mkMediaSegment {
  uri : string;
  duration : Z;
  title : option string;
  discontinuity : bool }.

Record MediaPlaylist := mkMediaPlaylist {
  version : option Z;
  target_duration : Z;
  media_sequence : Z;
  segments : list MediaSegment;
  discontinuity_sequence : Z;
  end_list : bool;
  playlist_type : option MediaPlaylistType;
  i_frames_only : bool;
  independent_segments : bool }.

(** [MediaSegment { uri, duration, ..Default::default() }]. *)
Definition segment_of (u : string) (d : Z) : MediaSegment :=
  {| uri := u; duration := d; title := None; discontinuity := false |}.

(** [MediaPlaylist::default()]. *)
Definition default_playlist : MediaPlaylist :=
  {| version := None; target_duration := 0; media_sequence := 0; segments := [];
     discontinuity_sequence := 0; end_list := false; playlist_type := None;
     i_frames_only := false; independent_segments := false |}.

(** [crate::error::PlaylistFix], without the wrapped library errors. *)
Inductive PlaylistFix := Reqwest | Io | URL.

(** What [fix] does that can be observed: requests, file creation and
    writing, and error log lines. *)
Inductive Effect :=
| NetGet (url : string)
| FileCreate (path : string)
| FileWrite (path : string) (pl : MediaPlaylist)
| LogError (msg : string).

(** How a run stops early: an [Err] returned with [?], or a panic. *)
Inductive Halt := Err (e : PlaylistFix) | Panic.

(** A writer monad over the effects, with early exit. *)
Definition M (A : Type) : Type := (list Effect * (A + Halt))%type.

Definition mret {A} (a : A) : M A := ([], inl a).

Definition mbind {A B} (m : M A) (k : A -> M B) : M B :=
  match m with
  | (w, inl a) => let '(w', r) := k a in ((w ++ w')%list, r)
  | (w, inr h) => (w, inr h)
  end.

Definition tell (e : Effect) : M unit := ([e], inl tt).

Definition halt {A} (h : Halt) : M A := ([], inr h).

Notation "'let*' x ':=' m 'in' k" := (mbind m (fun x => k))
  (at level 200, x name, m at level 100, k at level 200).

Fixpoint mapM {A B} (f : A -> M B) (l : list A) : M (list B) :=
  match l with
  | [] => mret []
  | x :: r => let* y := f x in let* ys := mapM f r in mret (y :: ys)
  end.

(** [FIX_REGEX.captures_iter(url)] with [FIX_REGEX = [^/]+]: the maximal
    runs of characters other than [/]. *)
Definition fix_regex (url : string) : list string :=
  filter (fun x => negb (String.eqb x "")) (Cdn.split_on "/" url).

(** [v[i]] on a [Vec]: a panic out of bounds. *)
Definition index {A} (v : list A) (i : nat) : M A :=
  match nth_error v i with Some x => mret x | None => halt Panic end.

(** [str::is_char_boundary] on the UTF-8 bytes of a string: [0], the
    length, or an index whose byte is no continuation byte
    [0x80..0xBF]. *)
Definition is_char_boundary (s : string) (n : nat) : bool :=
  if (n =? 0)%nat then true
  else match String.get n s with
       | None => (n =? String.length s)%nat
       | Some c => negb ((128 <=? nat_of_ascii c) && (nat_of_ascii c <? 192))%nat
       end.

(** [&s[..s.len() - k]]: the subtraction on [usize] panics below zero,
    and the slice panics when the cut is not a character boundary. *)
Definition slice_end (s : string) (k : nat) : M string :=
  if (String.length s <? k)%nat then halt Panic
  else if is_char_boundary s (String.length s - k)
  then mret (substring 0 (String.length s - k) s)
  else halt Panic.

Section FixEnv.

(** [HTTP_CLIENT.get(url).send()]: [None] is an error, otherwise the
    status and what [text()] returns ([None] is an error). *)
Variable http_get : string -> option (Z * option string).
(** [m3u8_rs::parse_media_playlist_res] on the body's bytes. *)
Variable parse_media_playlist_res : string -> option MediaPlaylist.
(** [alphanumeric_sort::sort_str_slice]. *)
Variable sort_str_slice : list string -> list string.
(** Whether [File::create(path)] and [playlist.write_to(&mut file)]
    succeed. *)
Variables create_ok write_ok : string -> bool.

(** The header [fix] copies from the parsed playlist. *)
Definition header (pl : MediaPlaylist) : MediaPlaylist :=
  {| version := version pl; target_duration := target_duration pl;
     media_sequence := media_sequence pl; segments := [];
     discontinuity_sequence := discontinuity_sequence pl; end_list := end_list pl;
     playlist_type := playlist_type pl; i_frames_only := false;
     independent_segments := false |}.

(** One segment of the pattern method (the loop is the same with and
    without [flags.progressbar]; the flags only change what is printed). *)
Definition pattern_segment (base_url : string) (segment : MediaSegment) : M MediaSegment :=
  let url := (base_url ++ uri segment)%string in
  if Str.contains "unmuted" (uri segment) then
    let* pre := slice_end url 11 in
    mret (segment_of (pre ++ "-muted.ts") (duration segment))
  else mret (segment_of url (duration segment)).

(** One request of the old method ([buffer_unordered] runs them
    concurrently; they are taken here in list order, which the sort after
    them makes irrelevant to the URIs). *)
Definition old_fetch (url : string) : M string :=
  let* _ := tell (NetGet url) in
  match http_get url with
  | None => halt Panic
  | Some (status, _) =>
      if status =? 403 then
        let remove_chars := if Str.contains "unmuted" url then 11%nat else 3%nat in
        let* pre := slice_end url remove_chars in
        mret (pre ++ "-muted.ts")%string
      else mret url
  end.

Fixpoint pair_segments (sorted : list string) (segs : list MediaSegment) (i : nat)
    : M (list MediaSegment) :=
  match segs with
  | [] => mret []
  | segment :: r =>
      let* u := index sorted i in
      let* rest := pair_segments sorted r (S i) in
      mret (segment_of u (duration segment) :: rest)
  end.

Definition old_method_segments (base_url : string) (pl : MediaPlaylist)
    : M (list MediaSegment) :=
  let initial_url_vec := map (fun segment => (base_url ++ uri segment)%string) (segments pl) in
  let* fetches := mapM old_fetch initial_url_vec in
  pair_segments (sort_str_slice fetches) (segments pl) 0.

Definition url_error_msg : string := "Only twitch.tv and cloudfront.net URLs are supported".
Definition unmute_error_msg : string := "Error in unmute()".

(** [fix] ([fix] is a keyword of Rocq). *)
Definition fix_ (url : string) (output : option string) (old_method : bool) : M unit :=
  let* _ :=
    if negb (Str.contains "twitch.tv" url || Str.contains "cloudfront.net" url) then
      let* _ := tell (LogError url_error_msg) in halt (Err URL)
    else mret tt in
  let base_url_parts := fix_regex url in
  let* p1 := index base_url_parts 1 in
  let* p2 := index base_url_parts 2 in
  let* p3 := index base_url_parts 3 in
  let base_url := ("https://" ++ p1 ++ "/" ++ p2 ++ "/" ++ p3 ++ "/")%string in
  let* _ := tell (NetGet url) in
  let* res := match http_get url with None => halt (Err Reqwest) | Some r => mret r end in
  let* body := match snd res with None => halt (Err Reqwest) | Some b => mret b end in
  let* playlist :=
    match parse_media_playlist_res body with
    | Some pl =>
        let* segs :=
          if old_method then old_method_segments base_url pl
          else mapM (pattern_segment base_url) (segments pl) in
        mret {| version := version pl; target_duration := target_duration pl;
                media_sequence := media_sequence pl; segments := segs;
                discontinuity_sequence := discontinuity_sequence pl;
                end_list := end_list pl; playlist_type := playlist_type pl;
                i_frames_only := false; independent_segments := false |}
    | None => let* _ := tell (LogError unmute_error_msg) in mret default_playlist
    end in
  let* path :=
    match output with
    | Some path => mret path
    | None => let* p := index base_url_parts 2 in mret ("muted_" ++ p ++ ".m3u8")%string
    end in
  let* _ := tell (FileCreate path) in
  let* _ := if create_ok path then mret tt else halt (Err Io) in
  let* _ := tell (FileWrite path playlist) in
  if write_ok path then mret tt else halt (Err Io).

End FixEnv.

End Fix.

(** ** Probe classification ([bruteforcer] in src/twitch/vods.rs,
    [clip_bruteforce] in src/twitch/clips.rs) *)

Module Probe.

(** [ReturnURL] *)
Record ReturnURL := { url : string; muted : bool }.

(** The lines a probe prints. *)
Inductive Msg :=
| GotIt | StillGoing | Throttled (status : Z) | ReqwestError
| CheckingURL (status : Z) | GotAClip | ErrorSending.

(** The handling of one [bruteforcer] response: [Some status], or [None]
    for an error of [send()]. *)
Definition vod_probe (verbose : bool) (u : Vods.TwitchURL) (res : option Z)
    : option Vods.TwitchURL * list Msg :=
  match res with
  | Some status =>
      if status =? 200 then (Some u, if verbose then [GotIt] else [])
      else if (status =? 403) || (status =? 404) then
        (None, if verbose then [StillGoing] else [])
      else (None, [Throttled status])
  | None => (None, [ReqwestError])
  end.

(** The [fetches] of [bruteforcer]: one [send()] per URL
    ([buffer_unordered] reorders completions; only the set of results
    is used after it). *)
Definition vod_fetches (verbose : bool) (net : string -> option Z)
    (urls : list Vods.TwitchURL) : list (option Vods.TwitchURL * list Msg) :=
  map (fun u => vod_probe verbose u (net (Vods.full_url u))) urls.

(** The URL of one clip offset. *)
Definition clip_url (vod : string) (number : Z) : string :=
  "https://clips-media-assets2.twitch.tv/" ++ vod ++ "-offset-" ++ Str.of_Z number ++ ".mp4".

(** [start..end] *)
Definition range (start end_ : Z) : list Z :=
  map (fun i => start + Z.of_nat i) (seq 0 (Z.to_nat (end_ - start))).

(** The URLs [clip_bruteforce] requests, in the order of the range. *)
Definition clip_urls (vod start end_ : Z) : list string :=
  map (fun number => clip_url (Str.of_Z vod) number) (range start end_).

(** The handling of one [clip_bruteforce] response (the same with and
    without [flags.progressbar]). *)
Definition clip_probe (verbose : bool) (u : string) (res : option Z)
    : option ReturnURL * list Msg :=
  match res with
  | None => (None, [ErrorSending])
  | Some status =>
      if status =? 200 then
        (Some {| url := u; muted := false |},
         CheckingURL status :: (if verbose then [GotAClip] else []))
      else if status =? 403 then
        (None, CheckingURL status :: (if verbose then [StillGoing] else []))
      else (None, [CheckingURL status; Throttled status])
  end.

(** The [res] vector of [clip_bruteforce] with the lines printed. *)
Definition clip_fetches (verbose : bool) (net : string -> option Z)
    (vod start end_ : Z) : list (option ReturnURL * list Msg) :=
  map (fun u => clip_probe verbose u (net u)) (clip_urls vod start end_).

End Probe.

Module TimestampText.
Import Timestamp.

(** The ASCII digit of [k] in [0..9]. *)
Definition digit (k : Z) : ascii := ascii_of_nat (Z.to_nat (48 + k)).

(** [n] decimal digits of [x], zero-padded as [{:0n}] prints them. *)
Fixpoint zero_pad (n : nat) (x : Z) : string :=
  match n with
  | O => EmptyString
  | S n' => String (digit (x / 10 ^ Z.of_nat n')) (zero_pad n' (x mod 10 ^ Z.of_nat n'))
  end.

(** Texts in the formats [parse_timestamp] reads: RFC 3339 with a zone,
    [%Y-%m-%d %H:%M:%S] with a tail, and [%d-%m-%Y %H:%M]. *)
Definition render_rfc3339 (d : DT) (zone : string) : string :=
  zero_pad 4 (dt_year d) ++ "-" ++ zero_pad 2 (dt_month d) ++ "-" ++ zero_pad 2 (dt_day d) ++ "T" ++
  zero_pad 2 (dt_hour d) ++ ":" ++ zero_pad 2 (dt_minute d) ++ ":" ++ zero_pad 2 (dt_second d) ++ zone.

Definition render_date_time (d : DT) (tail : string) : string :=
  zero_pad 4 (dt_year d) ++ "-" ++ zero_pad 2 (dt_month d) ++ "-" ++ zero_pad 2 (dt_day d) ++ " " ++
  zero_pad 2 (dt_hour d) ++ ":" ++ zero_pad 2 (dt_minute d) ++ ":" ++ zero_pad 2 (dt_second d) ++ tail.

Definition render_wo_sec (d : DT) : string :=
  zero_pad 2 (dt_day d) ++ "-" ++ zero_pad 2 (dt_month d) ++ "-" ++ zero_pad 4 (dt_year d) ++ " " ++
  zero_pad 2 (dt_hour d) ++ ":" ++ zero_pad 2 (dt_minute d).

(** The number a string of ASCII digits spells. *)
Fixpoint decimal_value (acc : Z) (s : string) : Z :=
  match s with
  | EmptyString => acc
  | String c r => decimal_value (acc * 10 + Str.digit_val c) r
  end.

(** Fields that [zero_pad] prints in full. *)
Definition printable (d : DT) : bool :=
  (0 <=? dt_year d) && (dt_year d <=? 9999) &&
  (0 <=? dt_month d) && (dt_month d <? 100) && (0 <=? dt_day d) && (dt_day d <? 100) &&
  (0 <=? dt_hour d) && (dt_hour d <? 100) && (0 <=? dt_minute d) && (dt_minute d <? 100) &&
  (0 <=? dt_second d) && (dt_second d <? 100).

End TimestampText.

Module PathText.

(** No byte [c] in [s]. *)
Definition no_char (c : ascii) (s : string) : bool := Str.sforall (fun x => negb (Ascii.eqb x c)) s.

(** A name that is a normal path component (not empty, [.] or [..]). *)
Definition normal_name (n : string) : bool :=
  negb (String.eqb n "") && negb (String.eqb n ".") && negb (String.eqb n "..").

End PathText.

Module FixText.
Import Fix.

(** The file an effect of [fix] creates or writes, if any. *)
Definition file_target (e : Effect) : option string :=
  match e with
  | FileCreate p => Some p
  | FileWrite p _ => Some p
  | _ => None
  end.


End FixText.

(** ** [Commands] (src/config.rs) and [trim_newline] (src/interface.rs) *)

Module Config.

(** [Commands]: the fields the parsed menu choice carries. *)
Inductive Commands :=
| Exact (username : string) (id : Z) (stamp : string)
| Bruteforce (username : string) (id : Z) (from to : string)
| Link (url : string)
| Live (username : string)
| Clip (clip : string)
| Clipforce (id start end_ : Z)
| Fix (url : string) (output : option string) (slow : bool)
| Update.

(** [Commands::VARIANTS] (strum's [VariantNames]). *)
Definition VARIANTS : list string :=
  ["Exact"; "Bruteforce"; "Link"; "Live"; "Clip"; "Clipforce"; "Fix"; "Update"].

(** [Commands::from_str] (strum's [EnumString]): the variant of that
    name, its fields set to [Default::default()]. *)
Definition from_str (s : string) : option Commands :=
  if String.eqb s "Exact" then Some (Exact "" 0 "")
  else if String.eqb s "Bruteforce" then Some (Bruteforce "" 0 "" "")
  else if String.eqb s "Link" then Some (Link "")
  else if String.eqb s "Live" then Some (Live "")
  else if String.eqb s "Clip" then Some (Clip "")
  else if String.eqb s "Clipforce" then Some (Clipforce 0 0 0)
  else if String.eqb s "Fix" then Some (Fix "" None false)
  else if String.eqb s "Update" then Some Update
  else None.

(** [str::parse::<usize>] on a 64-bit target: an optional [+], then one
    or more ASCII digits, the value below 2^64. *)
Definition parse_usize (s : string) : option Z :=
  let src := match s with String "+" r => r | _ => s end in
  if String.eqb src "" then None
  else if Str.all_digits src then
    let v := TimestampText.decimal_value 0 src in
    if v <? 2 ^ 64 then Some v else None
  else None.

(** [Commands::from_selector]; [saturating_sub(1)] stops at [0]. *)
Definition from_selector (s : string) : option Commands :=
  let special :=
    if String.eqb s "u" || String.eqb s "U" then Some Update else None in
  match parse_usize s with
  | Some index =>
      let zero_based_index := Z.to_nat (Z.max 0 (index - 1)) in
      match nth_error VARIANTS zero_based_index with
      | Some variant => from_str variant
      | None => special
      end
  | None => special
  end.

(** [Commands::iter()] (strum's [EnumIter]): each variant with default
    fields, in declaration order. *)
Definition iter : list Commands :=
  [Exact "" 0 ""; Bruteforce "" 0 "" ""; Link ""; Live ""; Clip "";
   Clipforce 0 0 0; Fix "" None false; Update].

(** [Commands::to_selector]. *)
Definition to_selector (c : Commands) : option string :=
  match c with Update => Some "u" | _ => None end.

(** The selector [main_interface] prints for the [i]-th entry of the menu. *)
Definition menu_selector (i : nat) (com : Commands) : string :=
  match to_selector com with
  | Some str => str
  | None => Str.of_Z (Z.of_nat i + 1)
  end.

End Config.

Module Interface.

(** [trim_newline]: a final [\n] is popped, then a [\r] before it. *)
Definition trim_newline (s : string) : string :=
  if Str.ends_with (String "010"%char EmptyString) s then
    let s1 := substring 0 (String.length s - 1) s in
    if Str.ends_with (String "013"%char EmptyString) s1
    then substring 0 (String.length s1 - 1) s1 else s1
  else s.

End Interface.

(** ** [clip_bruteforce] (src/twitch/clips.rs) *)

Module ClipRun.
Import Probe.

(** [clip_bruteforce]: the [filter_map] over [start..end] keeps the
    order of the range ([collect] of an indexed parallel iterator); it
    always returns [Ok(Some(res))]. *)
Definition clip_bruteforce (verbose : bool) (net : string -> option Z)
    (vod start end_ : Z) : option (list ReturnURL) :=
  Some (flat_map (fun p => match fst p with Some r => [r] | None => [] end)
                 (clip_fetches verbose net vod start end_)).

End ClipRun.

(* ================================================================ *)
(** * Proofs *)
(* ================================================================ *)

Module StrFacts.

Lemma app_assoc_s (a b c : string) : ((a ++ b) ++ c = a ++ (b ++ c))%string.
Proof. induction a as [|x a IH]; simpl; [reflexivity|]. rewrite IH. reflexivity. Qed.

Lemma app_nil_r_s (a : string) : (a ++ "")%string = a.
Proof. induction a as [|x a IH]; simpl; [reflexivity|]. rewrite IH. reflexivity. Qed.

Lemma length_app_s (a b : string) :
  String.length (a ++ b) = (String.length a + String.length b)%nat.
Proof. induction a as [|x a IH]; simpl; [reflexivity|]. rewrite IH. reflexivity. Qed.

Lemma substring_full (a : string) : substring 0 (String.length a) a = a.
Proof. induction a as [|x a IH]; simpl; [reflexivity|]. rewrite IH. reflexivity. Qed.

(** A property of every byte, decided by checking the 256 of them. *)
Lemma ascii_check (f g : ascii -> bool) :
  forallb (fun n => implb (f (ascii_of_nat n)) (g (ascii_of_nat n))) (seq 0 256) = true ->
  forall c, f c = true -> g c = true.
Proof.
  intros H c Hc. rewrite forallb_forall in H.
  assert (In (nat_of_ascii c) (seq 0 256)) as Hin.
  { apply in_seq. pose proof (nat_ascii_bounded c). lia. }
  specialize (H _ Hin). rewrite ascii_nat_embedding, Hc in H. exact H.
Qed.

End StrFacts.

Module TimestampFacts.
Import Timestamp StrFacts.

(** A parser [consumes] a prefix satisfying [Q]: on success the input is
    that prefix followed by the remaining input. *)
Definition consumes {A} (p : Parser A) (Q : string -> Prop) : Prop :=
  forall s a r, p s = Some (a, r) -> exists pre, s = (pre ++ r)%string /\ Q pre.

Definition SF (ok : ascii -> bool) (pre : string) : Prop := Str.sforall ok pre = true.
Definition ND (pre : string) : Prop := Str.all_digits pre = false.

Lemma sforall_app ok a b :
  Str.sforall ok (a ++ b) = Str.sforall ok a && Str.sforall ok b.
Proof. induction a as [|c a IH]; simpl; [reflexivity|]. rewrite IH. apply andb_assoc. Qed.

Lemma c_ret {A} ok (x : A) : consumes (ret x) (SF ok).
Proof. intros s a r H. inversion H; subst. exists ""%string. split; reflexivity. Qed.

Lemma c_fail {A} Q : consumes (@pfail A) Q.
Proof. intros s a r H. discriminate. Qed.

Lemma c_guard ok b : consumes (guard b) (SF ok).
Proof. destruct b; [apply c_ret|apply c_fail]. Qed.

Lemma c_bind_all {A B} ok (p : Parser A) (f : A -> Parser B) :
  consumes p (SF ok) -> (forall x, consumes (f x) (SF ok)) ->
  consumes (bind p f) (SF ok).
Proof.
  intros Hp Hf s b r H. unfold bind in H.
  destruct (p s) as [[x m]|] eqn:E; [|discriminate].
  destruct (Hp _ _ _ E) as [p1 [-> Q1]].
  destruct (Hf _ _ _ _ H) as [p2 [-> Q2]].
  exists (p1 ++ p2)%string. split.
  - symmetry. apply app_assoc_s.
  - unfold SF in *. rewrite sforall_app, Q1, Q2. reflexivity.
Qed.

Lemma c_bind_l {A B} (p : Parser A) (f : A -> Parser B) :
  consumes p ND -> (forall x, consumes (f x) (SF (fun _ => true))) ->
  consumes (bind p f) ND.
Proof.
  intros Hp Hf s b r H. unfold bind in H.
  destruct (p s) as [[x m]|] eqn:E; [|discriminate].
  destruct (Hp _ _ _ E) as [p1 [-> Q1]].
  destruct (Hf _ _ _ _ H) as [p2 [-> _]].
  exists (p1 ++ p2)%string. split.
  - symmetry. apply app_assoc_s.
  - unfold ND, Str.all_digits in *. rewrite sforall_app, Q1. reflexivity.
Qed.

Lemma c_bind_r {A B} (p : Parser A) (f : A -> Parser B) :
  consumes p (SF (fun _ => true)) -> (forall x, consumes (f x) ND) ->
  consumes (bind p f) ND.
Proof.
  intros Hp Hf s b r H. unfold bind in H.
  destruct (p s) as [[x m]|] eqn:E; [|discriminate].
  destruct (Hp _ _ _ E) as [p1 [-> _]].
  destruct (Hf _ _ _ _ H) as [p2 [-> Q2]].
  exists (p1 ++ p2)%string. split.
  - symmetry. apply app_assoc_s.
  - unfold ND, Str.all_digits in *. rewrite sforall_app, Q2, andb_false_r. reflexivity.
Qed.

Lemma c_any_char ok ok' :
  (forall c, ok' c = true -> ok c = true) -> consumes (any_char ok') (SF ok).
Proof.
  intros Hok s a r H. destruct s as [|c s]; [discriminate|]. simpl in H.
  destruct (ok' c) eqn:E; [|discriminate]. inversion H; subst.
  exists (String a ""). split; [reflexivity|]. unfold SF; simpl.
  rewrite (Hok _ E). reflexivity.
Qed.

Lemma c_lit ok c : ok c = true -> consumes (lit c) (SF ok).
Proof.
  intros Hok s a r H. destruct s as [|c' s]; [discriminate|]. simpl in H.
  destruct (Ascii.eqb c c') eqn:E; [|discriminate]. inversion H; subst.
  apply Ascii.eqb_eq in E. subst. exists (String c' ""). split; [reflexivity|].
  unfold SF; simpl. rewrite Hok. reflexivity.
Qed.

Lemma c_lit_nd c : Str.is_digit c = false -> consumes (lit c) ND.
Proof.
  intros Hc s a r H. destruct s as [|c' s]; [discriminate|]. simpl in H.
  destruct (Ascii.eqb c c') eqn:E; [|discriminate]. inversion H; subst.
  apply Ascii.eqb_eq in E. subst. exists (String c' ""). split; [reflexivity|].
  unfold ND, Str.all_digits; simpl. rewrite Hc. reflexivity.
Qed.

Lemma prefix_split w s : String.prefix w s = true ->
  s = (w ++ substring (String.length w) (String.length s - String.length w) s)%string.
Proof.
  revert s. induction w as [|c w IH]; intros s H.
  - simpl. rewrite Nat.sub_0_r, substring_full. reflexivity.
  - destruct s as [|c' s]; [discriminate|]. simpl in H.
    destruct (ascii_dec c c'); [subst|discriminate].
    simpl. f_equal. apply IH. exact H.
Qed.

Lemma c_lits ok w : Str.sforall ok w = true -> consumes (lits w) (SF ok).
Proof.
  intros Hw s a r H. unfold lits in H.
  destruct (String.prefix w s) eqn:E; [|discriminate]. inversion H; subst.
  exists w. split; [apply prefix_split; exact E | exact Hw].
Qed.

Lemma c_opt {A} ok (p : Parser A) : consumes p (SF ok) -> consumes (opt p) (SF ok).
Proof.
  intros Hp s a r H. unfold opt in H. destruct (p s) as [[x m]|] eqn:E.
  - inversion H; subst. apply (Hp _ _ _ E).
  - inversion H; subst. exists ""%string. split; reflexivity.
Qed.

Lemma c_digits_acc ok n acc :
  (forall c, Str.is_digit c = true -> ok c = true) ->
  consumes (digits_acc n acc) (SF ok).
Proof.
  intros Hok. revert acc. induction n as [|n IH]; intros acc; simpl.
  - apply c_ret.
  - apply c_bind_all; [apply c_any_char; exact Hok|]. intros x. apply IH.
Qed.

Lemma c_skip ok :
  (forall c, Str.is_digit c = true -> ok c = true) ->
  consumes (fun s => Some (tt, skip_digits s)) (SF ok).
Proof.
  intros Hok s a r H. inversion H; subst. clear H.
  induction s as [|c s IH]; simpl.
  - exists ""%string. split; reflexivity.
  - destruct (Str.is_digit c) eqn:E.
    + destruct IH as [pre [Hs Hpre]]. exists (String c pre). split.
      * simpl. rewrite <- Hs. reflexivity.
      * unfold SF in *; simpl. rewrite (Hok _ E), Hpre. reflexivity.
    + exists ""%string. split; reflexivity.
Qed.

Lemma c_weaken {A} (p : Parser A) P Q :
  (forall pre, P pre -> Q pre) -> consumes p P -> consumes p Q.
Proof.
  intros HPQ Hp s a r H. destruct (Hp _ _ _ H) as [pre [? ?]]. eauto.
Qed.

Lemma run_consumes {A} (p : Parser A) Q s a :
  consumes p Q -> run p s = Some a -> Q s.
Proof.
  intros Hp H. unfold run in H. destruct (p s) as [[x r]|] eqn:E; [|discriminate].
  destruct r; [|discriminate]. destruct (Hp _ _ _ E) as [pre [Hs HQ]].
  rewrite app_nil_r_s in Hs. subst. exact HQ.
Qed.

Ltac char_tac := apply ascii_check; vm_compute; reflexivity.

(** Decompose a parser into its primitives and discharge each. *)
Ltac csf :=
  repeat match goal with
  | |- consumes (bind _ _) (SF _) => apply c_bind_all; [ | intro; cbv beta ]
  | |- consumes (ret _) (SF _) => apply c_ret
  | |- consumes (guard _) (SF _) => apply c_guard
  | |- consumes pfail _ => apply c_fail
  | |- consumes (lit _) (SF _) => apply c_lit; reflexivity
  | |- consumes (lits _) (SF _) => apply c_lits; reflexivity
  | |- consumes (opt _) (SF _) => apply c_opt
  | |- consumes (any_char _) (SF _) => apply c_any_char; char_tac
  | |- consumes (digits _) (SF _) => apply c_digits_acc; char_tac
  | |- consumes (fun s => Some (tt, skip_digits s)) (SF _) => apply c_skip; char_tac
  | |- consumes year _ => unfold year
  | |- consumes (finish _) _ => unfold finish
  | |- consumes date_time_prefix _ => unfold date_time_prefix
  | |- consumes (match ?x with _ => _ end) _ => destruct x
  | |- consumes (if ?x then _ else _) _ => destruct x
  end.

Definition noU (c : ascii) : bool := negb (Ascii.eqb c "U"%char).

Lemma rfc3339_noU : consumes rfc3339 (SF noU).
Proof. unfold rfc3339. csf. Qed.

Lemma wo_utc_noU : consumes format_wo_utc (SF noU).
Proof. unfold format_wo_utc. csf. Qed.

Lemma wo_sec_noU : consumes format_wo_sec (SF noU).
Proof. unfold format_wo_sec. csf. Qed.

Lemma rfc3339_nd : consumes rfc3339 ND.
Proof.
  unfold rfc3339. apply c_bind_r; [csf|]. intro; cbv beta.
  apply c_bind_l; [apply c_lit_nd; reflexivity|]. intro; cbv beta. csf.
Qed.

Lemma date_time_prefix_nd : consumes date_time_prefix ND.
Proof.
  unfold date_time_prefix. apply c_bind_r; [csf|]. intro; cbv beta.
  apply c_bind_l; [apply c_lit_nd; reflexivity|]. intro; cbv beta. csf.
Qed.

Lemma wo_utc_nd : consumes format_wo_utc ND.
Proof.
  unfold format_wo_utc. apply c_bind_l; [apply date_time_prefix_nd|].
  intro; cbv beta. csf.
Qed.

Lemma wo_sec_nd : consumes format_wo_sec ND.
Proof.
  unfold format_wo_sec. apply c_bind_r; [csf|]. intro; cbv beta.
  apply c_bind_l; [apply c_lit_nd; reflexivity|]. intro; cbv beta. csf.
Qed.

Lemma parse_utc_none p Q s :
  consumes p Q -> ~ Q s -> parse_utc p s = None.
Proof.
  intros Hp HQ. unfold parse_utc. destruct (run p s) eqn:E; [|reflexivity].
  exfalso. apply HQ. eapply run_consumes; eauto.
Qed.

Lemma contains_UTC_not_noU s :
  Str.contains "UTC" s = true -> Str.sforall noU s = false.
Proof.
  induction s as [|c s IH]; intros H; [discriminate|].
  cbn [Str.sforall]. unfold noU at 1.
  destruct (Ascii.eqb c "U"%char) eqn:Ec; [reflexivity|]. cbn [negb andb].
  apply IH.
  assert (Hp : String.prefix "UTC" (String c s) = false).
  { cbn [String.prefix]. destruct (ascii_dec "U"%char c) as [<-|]; [discriminate|reflexivity]. }
  change (Str.contains "UTC" (String c s)) with
    (if String.prefix "UTC" (String c s) then true else Str.contains "UTC" s) in H.
  rewrite Hp in H. exact H.
Qed.

Lemma sforall_impl (f g : ascii -> bool) s :
  (forall c, f c = true -> g c = true) ->
  Str.sforall f s = true -> Str.sforall g s = true.
Proof.
  intros Hfg. induction s as [|c s IH]; simpl; [reflexivity|].
  intros H. apply andb_true_iff in H as [H1 H2].
  rewrite (Hfg _ H1), (IH H2). reflexivity.
Qed.

Lemma all_digits_no_UTC s :
  Str.all_digits s = true -> Str.contains "UTC" s = false.
Proof.
  intros H. destruct (Str.contains "UTC" s) eqn:E; [|reflexivity].
  apply contains_UTC_not_noU in E.
  assert (Str.sforall noU s = true) as Hn.
  { apply (sforall_impl Str.is_digit); [char_tac | exact H]. }
  congruence.
Qed.

End TimestampFacts.


Module TimestampClaims.
Import Timestamp TimestampFacts.

Lemma rules_tail_none_noU s :
  Str.contains "UTC" s = true ->
  parse_utc rfc3339 s = None /\ parse_utc format_wo_utc s = None /\
  parse_utc format_wo_sec s = None.
Proof.
  intros H. pose proof (contains_UTC_not_noU s H) as Hn.
  assert (~ SF noU s) as HQ by (unfold SF; congruence).
  repeat split; eapply parse_utc_none; eauto using rfc3339_noU, wo_utc_noU, wo_sec_noU.
Qed.

Lemma rules_tail_none_digits s :
  Str.all_digits s = true ->
  parse_utc rfc3339 s = None /\ parse_utc format_wo_utc s = None /\
  parse_utc format_wo_sec s = None.
Proof.
  intros H. assert (~ ND s) as HQ by (unfold ND; congruence).
  repeat split; eapply parse_utc_none; eauto using rfc3339_nd, wo_utc_nd, wo_sec_nd.
Qed.

(** C3: [parse_timestamp] behaves exactly as the rule list "all digits →
    literal epoch; contains UTC → "YYYY-MM-DD HH:MM:SS UTC"; RFC 3339;
    "YYYY-MM-DD HH:MM:SS"; "DD-MM-YYYY HH:MM"", tried in this order with
    the first match winning, every date read as a UTC wall-clock time; and
    it gives the six tabulated results of the specification. *)
Theorem parse_timestamp_rule_order :
  (forall s, parse_timestamp s = parse_timestamp_rules s) /\
  parse_timestamp "1657871396" = Some 1657871396 /\
  parse_timestamp "2022-07-15T07:49:56+00:00" = Some 1657871396 /\
  parse_timestamp "2022-07-15 07:49:56 UTC" = Some 1657871396 /\
  parse_timestamp "2022-07-15 07:49:56" = Some 1657871396 /\
  parse_timestamp "15-07-2022 07:49" = Some 1657871340 /\
  parse_timestamp "2022-07-15 0749" = None.
Proof.
  split; [|vm_compute; repeat split; reflexivity].
  intros s. unfold parse_timestamp, parse_timestamp_rules, first_some; cbn [fold_right].
  destruct (Str.all_digits s) eqn:Hd.
  - destruct (rules_tail_none_digits s Hd) as [-> [-> ->]].
    rewrite (all_digits_no_UTC s Hd).
    destruct (parse_i64 s); reflexivity.
  - destruct (Str.contains "UTC" s) eqn:Hu.
    + destruct (rules_tail_none_noU s Hu) as [-> [-> ->]].
      destruct (parse_utc format_with_utc s); reflexivity.
    + destruct (parse_utc rfc3339 s); [reflexivity|].
      destruct (parse_utc format_wo_utc s); [reflexivity|].
      destruct (parse_utc format_wo_sec s); reflexivity.
Qed.

End TimestampClaims.

Module VodsClaims.
Import Vods.

Lemma in_range_excl a b x : In x (range_excl a b) <-> a <= x < b.
Proof.
  unfold range_excl. rewrite in_map_iff. split.
  - intros [i [<- Hi]]. apply in_seq in Hi. lia.
  - intros H. exists (Z.to_nat (x - a)). split; [lia|]. apply in_seq. lia.
Qed.

Lemma i64_wrap_succ n2 :
  -9223372036854775808 <= n2 <= 9223372036854775807 ->
  i64_wrap (n2 + 1) = if n2 =? 9223372036854775807 then -9223372036854775808 else n2 + 1.
Proof.
  intros H. unfold i64_wrap. destruct (Z.eqb_spec n2 9223372036854775807) as [->|Hne].
  - reflexivity.
  - rewrite Z.mod_small; lia.
Qed.

Lemma in_range_incl n1 n2 x :
  -9223372036854775808 <= n1 -> -9223372036854775808 <= n2 <= 9223372036854775807 ->
  In x (range_incl n1 n2) <-> n1 <= x <= n2 /\ n2 < 9223372036854775807.
Proof.
  intros H1 H2. unfold range_incl. rewrite in_range_excl, i64_wrap_succ by exact H2.
  destruct (Z.eqb_spec n2 9223372036854775807); lia.
Qed.

Lemma lower_hex_length b : String.length (Sha1.lower_hex b) = (2 * List.length b)%nat.
Proof. induction b as [|x b IH]; simpl; [reflexivity|]. rewrite IH. lia. Qed.

Lemma digest_length m : List.length (Sha1.digest m) = 20%nat.
Proof.
  unfold Sha1.digest.
  destruct (fold_left _ _ _) as [[[[h0 h1] h2] h3] h4]. reflexivity.
Qed.

Lemma substring_length_le n s :
  (n <= String.length s)%nat -> String.length (substring 0 n s) = n.
Proof.
  revert s. induction n as [|n IH]; intros s H; [destruct s; reflexivity|].
  destruct s as [|c s]; simpl in *; [lia|]. rewrite IH; [reflexivity|lia].
Qed.

(** C5: for every (username, broadcastId, epoch range) and CDN list, the
    candidates of [bruteforcer] are exactly, for each epoch of the
    inclusive range and each CDN, the URL
    https://{cdn}/{hash}_{username}_{broadcastId}_{epoch}/chunked/index-dvr.m3u8
    where hash is the first 20 characters of the lowercase hex SHA-1 of
    "{username}_{broadcastId}_{epoch}" (20 hex characters long); a single
    epoch gives one candidate per CDN, and [exact] computes the same hash.
    The hash is a function of its inputs (the repository test's value is
    reproduced), so repeated computation yields the same value. *)
Example sha1_abc : Sha1.hex_of "abc" = "a9993e364706816aba3e25717850c26c9cd0d89d".
Proof. vm_compute. reflexivity. Qed.
Example sha1_empty : Sha1.hex_of "" = "da39a3ee5e6b4b0d3255bfef95601890afd80709".
Proof. vm_compute. reflexivity. Qed.
Example sha1_two_blocks :
  Sha1.hex_of "abcdbcdecdefdefgefghfghighijhijkijkljklmklmnlmnomnopnopq"
  = "84983e441c3bd26ebaae4aa1f95129e5e54670f1".
Proof. vm_compute. reflexivity. Qed.

Theorem candidate_url_shape :
  (forall username vod number1 number2 cdns c,
     -9223372036854775808 <= number1 -> -9223372036854775808 <= number2 <= 9223372036854775807 ->
     In c (bruteforce_urls username vod number1 number2 cdns) <->
     exists number cdn, number1 <= number <= number2 /\ number2 < 9223372036854775807 /\
       In cdn cdns /\
       let key := (username ++ "_" ++ Str.of_Z vod ++ "_" ++ Str.of_Z number)%string in
       let h := substring 0 20 (Sha1.hex_of key) in
       c = {| full_url := "https://" ++ cdn ++ "/" ++ h ++ "_" ++ key
                          ++ "/chunked/index-dvr.m3u8";
              hash := h; timestamp := number |}) /\
  (forall username vod number cdns,
     -9223372036854775808 <= number < 9223372036854775807 ->
     map full_url (bruteforce_urls username vod number number cdns) =
     map (fun cdn => "https://" ++ cdn ++ "/" ++ exact_hash username vod number ++ "_"
                     ++ username ++ "_" ++ Str.of_Z vod ++ "_" ++ Str.of_Z number
                     ++ "/chunked/index-dvr.m3u8")%string cdns) /\
  (forall username vod number1 cdns,
     -9223372036854775808 <= number1 ->
     bruteforce_urls username vod number1 9223372036854775807 cdns = []) /\
  (forall username vod number,
     exact_hash username vod number =
       substring 0 20 (Sha1.hex_of (username ++ "_" ++ Str.of_Z vod ++ "_" ++ Str.of_Z number)) /\
     String.length (exact_hash username vod number) = 20%nat) /\
  exact_hash "dansgaming" 42218705421 1622854217 = "d3dcbaf880c9e36ed8c8".
Proof.
  split; [|split; [|split; [|split]]].
  - intros username vod n1 n2 cdns c H1 H2. unfold bruteforce_urls.
    rewrite in_flat_map. split.
    + intros [number [Hn Hc]]. apply (in_range_incl n1 n2 number H1 H2) in Hn.
      apply in_map_iff in Hc as [cdn [<- Hcdn]].
      exists number, cdn. split; [lia|]. split; [lia|]. split; [exact Hcdn|].
      cbv zeta. repeat rewrite StrFacts.app_assoc_s. reflexivity.
    + intros [number [cdn [Hn [Hmax [Hcdn ->]]]]]. exists number.
      split; [apply (in_range_incl n1 n2 number H1 H2); lia|].
      apply in_map_iff. exists cdn. split; [|exact Hcdn].
      repeat rewrite StrFacts.app_assoc_s. reflexivity.
  - intros username vod number cdns Hn. unfold bruteforce_urls, range_incl.
    rewrite i64_wrap_succ by lia.
    destruct (Z.eqb_spec number 9223372036854775807); [lia|].
    unfold range_excl.
    replace (Z.to_nat (number + 1 - number)) with 1%nat by lia.
    simpl. rewrite app_nil_r, map_map. rewrite Z.add_0_r. reflexivity.
  - intros username vod n1 cdns H1. unfold bruteforce_urls, range_incl.
    rewrite i64_wrap_succ by lia. cbn [Z.eqb Pos.eqb]. unfold range_excl.
    replace (Z.to_nat (-9223372036854775808 - n1)) with 0%nat by lia. reflexivity.
  - intros username vod number. split; [reflexivity|].
    unfold exact_hash, Sha1.hex_of. apply substring_length_le.
    rewrite lower_hex_length, digest_length. lia.
  - vm_compute. reflexivity.
Qed.

(** C5 at the repository test's inputs: the candidates of the single
    epoch 1622854217 over two CDNs, and none at [i64::MAX]. *)
Lemma candidate_url_shape_witness :
  map full_url (bruteforce_urls "dansgaming" 42218705421 1622854217 1622854217
                  ["d2e2de1etea730.cloudfront.net"; "dqrpb9wgowsf5.cloudfront.net"]) =
    ["https://d2e2de1etea730.cloudfront.net/d3dcbaf880c9e36ed8c8_dansgaming_42218705421_1622854217/chunked/index-dvr.m3u8";
     "https://dqrpb9wgowsf5.cloudfront.net/d3dcbaf880c9e36ed8c8_dansgaming_42218705421_1622854217/chunked/index-dvr.m3u8"] /\
  bruteforce_urls "dansgaming" 42218705421 0 9223372036854775807
    ["d2e2de1etea730.cloudfront.net"] = [].
Proof.
  destruct candidate_url_shape as [_ [H2 [H3 [_ H5]]]]. split.
  - rewrite (H2 "dansgaming" 42218705421 1622854217
               ["d2e2de1etea730.cloudfront.net"; "dqrpb9wgowsf5.cloudfront.net"] ltac:(lia)).
    cbn [map]. rewrite H5. reflexivity.
  - apply H3. lia.
Defined.

End VodsClaims.

Module CdnFacts.
Import Cdn.

Definition str_lt (a b : string) : Prop := String.compare a b = Lt.
Definition str_le (a b : string) : Prop := String.leb a b = true.

Lemma str_lt_trans : Relations_1.Transitive str_lt.
Proof.
  intros a b c Hab Hbc. unfold str_lt in *.
  apply OrderedTypeEx.String_as_OT.cmp_lt.
  apply OrderedTypeEx.String_as_OT.cmp_lt in Hab, Hbc.
  eapply OrderedTypeEx.String_as_OT.lt_trans; eauto.
Qed.

Lemma str_lt_irrefl a : ~ str_lt a a.
Proof.
  unfold str_lt. intros H. apply OrderedTypeEx.String_as_OT.cmp_lt in H.
  apply (OrderedTypeEx.String_as_OT.lt_not_eq a a H). reflexivity.
Qed.

Lemma le_neq_lt a b : str_le a b -> a <> b -> str_lt a b.
Proof.
  unfold str_le, str_lt, String.leb. intros H Hne.
  destruct (String.compare a b) eqn:E; try reflexivity; [|discriminate].
  apply String.compare_eq_iff in E. contradiction.
Qed.

Lemma leb_false_ge a b : String.leb a b = false -> str_le b a.
Proof.
  intros H. destruct (String.leb_total a b) as [H'|H']; [congruence|exact H'].
Qed.

Lemma insert_perm x l : Permutation (insert x l) (x :: l).
Proof.
  induction l as [|y l IH]; simpl; [reflexivity|].
  destruct (String.leb x y); [reflexivity|].
  rewrite IH. apply perm_swap.
Qed.

Lemma sort_perm l : Permutation (sort l) l.
Proof.
  induction l as [|x l IH]; simpl; [reflexivity|].
  rewrite insert_perm, IH. reflexivity.
Qed.

Lemma insert_sorted x l : Sorted str_le l -> Sorted str_le (insert x l).
Proof.
  induction 1 as [|y l Hl IH Hhd]; simpl.
  - constructor; constructor.
  - destruct (String.leb x y) eqn:E.
    + constructor; [constructor; assumption | constructor; exact E].
    + constructor; [exact IH|].
      destruct l as [|z l]; simpl.
      * constructor. apply leb_false_ge. exact E.
      * inversion Hhd; subst. destruct (String.leb x z);
          constructor; [apply leb_false_ge; exact E | assumption].
Qed.

Lemma sort_sorted l : Sorted str_le (sort l).
Proof. induction l; simpl; [constructor|apply insert_sorted; assumption]. Qed.

Lemma dedup_head y l : exists t, dedup (y :: l) = y :: t.
Proof.
  revert y. induction l as [|z l IH]; intros y.
  - exists []. reflexivity.
  - cbn [dedup]. destruct (String.eqb y z) eqn:E.
    + apply String.eqb_eq in E. subst. apply IH.
    + eexists. reflexivity.
Qed.

Lemma dedup_in x l : In x (dedup l) <-> In x l.
Proof.
  induction l as [|y l IH]; [reflexivity|].
  destruct l as [|z l]; [reflexivity|].
  change (dedup (y :: z :: l)) with
    (if String.eqb y z then dedup (z :: l) else y :: dedup (z :: l)).
  destruct (String.eqb y z) eqn:E.
  - apply String.eqb_eq in E. subst. rewrite IH. simpl. tauto.
  - simpl. rewrite <- IH. simpl. tauto.
Qed.

Lemma dedup_sorted l : Sorted str_le l -> Sorted str_lt (dedup l).
Proof.
  induction l as [|y l IH]; intros H; [constructor|].
  destruct l as [|z l]; [constructor; constructor|].
  change (dedup (y :: z :: l)) with
    (if String.eqb y z then dedup (z :: l) else y :: dedup (z :: l)).
  apply Sorted_inv in H as [Hs Hhd]. inversion Hhd; subst.
  destruct (String.eqb y z) eqn:E.
  - apply IH. exact Hs.
  - destruct (dedup_head z l) as [t Ht]. rewrite Ht. rewrite Ht in IH.
    constructor; [apply IH; exact Hs|]. constructor.
    apply le_neq_lt; [assumption|]. apply String.eqb_neq. exact E.
Qed.

Lemma strongly_sorted_nodup l : StronglySorted str_lt l -> NoDup l.
Proof.
  induction 1 as [|a l _ IH Hall]; constructor; [|exact IH].
  intros Hin. rewrite Forall_forall in Hall.
  apply (str_lt_irrefl a). apply Hall. exact Hin.
Qed.

(** What [sort_unstable] then [dedup] guarantee. *)
Lemma sort_dedup_spec l :
  StronglySorted str_lt (sort_dedup l) /\ NoDup (sort_dedup l) /\
  (forall x, In x (sort_dedup l) <-> In x l).
Proof.
  assert (StronglySorted str_lt (sort_dedup l)) as Hs.
  { apply Sorted_StronglySorted; [exact str_lt_trans|].
    apply dedup_sorted, sort_sorted. }
  split; [exact Hs|]. split; [apply strongly_sorted_nodup; exact Hs|].
  intros x. unfold sort_dedup. rewrite dedup_in.
  split; apply Permutation_in; [|symmetry]; apply sort_perm.
Qed.

End CdnFacts.

Module CdnClaims.
Import Cdn CdnFacts.

Section Claims.
Variable CDN_URLS : list string.
Variables from_json from_toml from_yaml : string -> option (list string).

Ltac split_all :=
  repeat match goal with
  | |- context [match ?e with Missing => _ | Unreadable => _ | Text _ => _ end] =>
      let E := fresh "Hfs" in destruct e eqn:E; cbn beta iota zeta
  | |- context [match ?x with _ => _ end] => let E := fresh "E" in destruct x eqn:E
  | |- context [if ?x then _ else _] => let E := fresh "E" in destruct x eqn:E
  end.

Lemma not_nl_kept c :
  (byte c <? 128) = false \/ is_whitespace (byte c) = false \/ cont c = true ->
  negb (Ascii.eqb c "010"%char) = true.
Proof.
  intros H. destruct (Ascii.eqb_spec c "010"%char) as [->|]; [|reflexivity].
  destruct H as [H|[H|H]]; discriminate H.
Qed.

Lemma retain_not_ws_no_nl s :
  Str.sforall (fun c => negb (Ascii.eqb c "010"%char)) (retain_not_ws s) = true.
Proof.
  remember (String.length s) as n eqn:Hn.
  assert (Hle : (String.length s <= n)%nat) by lia. clear Hn. revert s Hle.
  induction n as [|n IH]; intros s Hle.
  { destruct s; [reflexivity|cbn in Hle; lia]. }
  destruct s as [|c r]; [reflexivity|]. cbn [String.length] in Hle.
  cbn [retain_not_ws].
  destruct (byte c <? 128) eqn:Eb.
  { destruct (is_whitespace (byte c)) eqn:Ew; [apply IH; lia|].
    cbn [Str.sforall]. rewrite not_nl_kept by auto. apply IH; lia. }
  destruct r as [|c1 r1]; [cbn [Str.sforall]; rewrite not_nl_kept by auto; reflexivity|].
  cbn [String.length] in Hle.
  destruct ((192 <=? byte c) && (byte c <? 224) && cont c1) eqn:E2.
  { apply andb_prop in E2 as [_ Hc1].
    destruct (is_whitespace _); [apply IH; lia|].
    cbn [Str.sforall]. rewrite !not_nl_kept by auto. apply IH; lia. }
  destruct r1 as [|c2 r2].
  { cbn [Str.sforall]. rewrite not_nl_kept by auto. apply IH. cbn. lia. }
  cbn [String.length] in Hle.
  destruct ((224 <=? byte c) && (byte c <? 240) && cont c1 && cont c2) eqn:E3.
  { apply andb_prop in E3 as [E3 Hc2]. apply andb_prop in E3 as [_ Hc1].
    destruct (is_whitespace _); [apply IH; lia|].
    cbn [Str.sforall]. rewrite !not_nl_kept by auto. apply IH; lia. }
  cbn [Str.sforall]. rewrite not_nl_kept by auto. apply IH. cbn. lia.
Qed.

Lemma split_on_none sep s :
  Str.sforall (fun c => negb (Ascii.eqb c sep)) s = true -> split_on sep s = [s].
Proof.
  induction s as [|c s IH]; [reflexivity|]. cbn [Str.sforall split_on].
  intros H. apply andb_prop in H as [Hc Hs]. rewrite (IH Hs).
  destruct (Ascii.eqb c sep); [discriminate|reflexivity].
Qed.

Lemma compile_shape fs path l :
  compile_cdn_list CDN_URLS from_json from_toml from_yaml fs path = Some l ->
  l = CDN_URLS \/ exists extra, l = sort_dedup (CDN_URLS ++ extra)%list.
Proof.
  unfold compile_cdn_list. split_all; intros H; inversion H; subst; eauto.
Qed.

Lemma compile_panics fs path :
  compile_cdn_list CDN_URLS from_json from_toml from_yaml fs path = None <-> exists p, path = Some p /\ fs p = Unreadable.
Proof.
  split.
  - unfold compile_cdn_list. split_all; intros H; try discriminate;
      (exists s; split; [reflexivity|congruence]).
  - intros [p [-> Hp]]. unfold compile_cdn_list. rewrite Hp.
    destruct (extension p); reflexivity.
Qed.

Lemma merged_spec extra :
  let l := sort_dedup (CDN_URLS ++ extra)%list in
  incl CDN_URLS l /\ StronglySorted str_lt l /\ NoDup l.
Proof.
  destruct (sort_dedup_spec (CDN_URLS ++ extra)%list) as [Hs [Hn Hin]].
  split; [|split; assumption].
  intros x Hx. apply Hin. apply in_or_app. left. exact Hx.
Qed.

(** The extension test of [compile_cdn_list] fails on an extension that
    is none of those it knows. *)
Lemma ext_neq e x :
  ~ In e ["json"; "toml"; "yaml"; "yml"; "txt"] -> In x ["json"; "toml"; "yaml"; "yml"; "txt"] ->
  String.eqb e x = false.
Proof. intros Hn Hx. apply String.eqb_neq. intros ->. exact (Hn Hx). Qed.

(** C6: [compile_cdn_list] yields [None] (a panic in [read_to_string]
    ... [unwrap]) exactly on a file that opens and cannot be read; every
    list it returns contains the baseline and is either the baseline
    itself or sorted (strictly, so duplicate-free); no path, a file that
    does not open, an unknown extension and a parse error all give the
    baseline unchanged. *)
Theorem compile_cdn_list_invariant fs path :
  let r := compile_cdn_list CDN_URLS from_json from_toml from_yaml fs path in
  (r = None <-> exists p, path = Some p /\ fs p = Unreadable) /\
  (forall l, r = Some l ->
     incl CDN_URLS l /\ (l = CDN_URLS \/ (StronglySorted str_lt l /\ NoDup l))) /\
  (path = None -> r = Some CDN_URLS) /\
  (forall p, path = Some p -> fs p = Missing -> r = Some CDN_URLS) /\
  (forall p t e, path = Some p -> fs p = Text t -> extension p = Some e ->
     ~ In e ["json"; "toml"; "yaml"; "yml"; "txt"] -> r = Some CDN_URLS) /\
  (forall p t, path = Some p -> fs p = Text t ->
     (extension p = Some "json" /\ from_json t = None) \/
     (extension p = Some "toml" /\ from_toml t = None) \/
     ((extension p = Some "yaml" \/ extension p = Some "yml") /\ from_yaml t = None) ->
     r = Some CDN_URLS).
Proof.
  intros r. split; [apply compile_panics|]. split.
  { intros l Hl. destruct (compile_shape fs path l Hl) as [->|[extra ->]].
    - split; [apply incl_refl|left; reflexivity].
    - destruct (merged_spec extra) as [Hi Hs]. split; [exact Hi|right; exact Hs]. }
  split; [intros ->; reflexivity|]. split.
  { intros p -> Hp. unfold r, compile_cdn_list. rewrite Hp. reflexivity. }
  split.
  { intros p t e -> Hp He Hn. unfold r, compile_cdn_list. rewrite Hp. cbn beta iota zeta.
    rewrite He. cbn beta iota.
    rewrite (ext_neq e "json"), (ext_neq e "toml"), (ext_neq e "yaml"), (ext_neq e "yml"),
      (ext_neq e "txt") by (exact Hn || (simpl; tauto)).
    reflexivity. }
  intros p t -> Hp Hcase. unfold r, compile_cdn_list. rewrite Hp. cbn beta iota zeta.
  destruct Hcase as [[He Hj]|[[He Ht]|[[He|He] Hy]]]; rewrite He; cbn beta iota.
  - rewrite Hj. reflexivity.
  - rewrite Ht. reflexivity.
  - rewrite Hy. reflexivity.
  - rewrite Hy. reflexivity.
Qed.

(** C7: a [.txt] file contributes the lines of [str::lines] (split at
    [\n], a [\r] before it dropped, no other trimming, empty lines kept
    but a final one dropped); a file without extension first loses every
    whitespace character (Unicode [White_Space], newlines included) and
    so contributes its whole remaining text as one entry (none if it is
    empty). *)
Theorem override_file_lines fs p t :
  fs p = Text t ->
  (extension p = Some "txt" ->
     compile_cdn_list CDN_URLS from_json from_toml from_yaml fs (Some p) =
       Some (sort_dedup (CDN_URLS ++ lines t)%list) /\
     (forall x, In x (sort_dedup (CDN_URLS ++ lines t)%list) <->
                In x CDN_URLS \/ In x (lines t))) /\
  (extension p = None ->
     compile_cdn_list CDN_URLS from_json from_toml from_yaml fs (Some p) =
       Some (sort_dedup (CDN_URLS ++ (if String.eqb (retain_not_ws t) "" then []
                                      else [retain_not_ws t]))%list)).
Proof.
  intros Hp. split.
  - intros He. split.
    + unfold compile_cdn_list. rewrite Hp. cbn beta iota zeta. rewrite He. reflexivity.
    + intros x. destruct (sort_dedup_spec (CDN_URLS ++ lines t)%list) as [_ [_ Hin]].
      rewrite Hin. apply in_app_iff.
  - intros He. unfold compile_cdn_list. rewrite Hp. cbn beta iota zeta. rewrite He.
    cbn beta iota. unfold lines. rewrite split_on_none by apply retain_not_ws_no_nl.
    reflexivity.
Qed.

End Claims.

Definition no_parse : string -> option (list string) := fun _ => None.

(** A path that opens but cannot be read (a directory, say). *)
Definition dir_fs : string -> FileState :=
  fun q => if String.eqb q "cdns.txt" then Unreadable else Missing.

(** C6 at a path that opens and cannot be read: [compile_cdn_list] does
    not return the baseline, it panics. *)
Lemma unreadable_file_panics :
  dir_fs "cdns.txt" = Unreadable /\
  compile_cdn_list sample_cdns no_parse no_parse no_parse dir_fs (Some "cdns.txt") = None.
Proof.
  split; [reflexivity|].
  apply (proj2 (proj1 (compile_cdn_list_invariant sample_cdns no_parse no_parse no_parse
                         dir_fs (Some "cdns.txt")))).
  exists "cdns.txt". split; reflexivity.
Defined.

Definition nl : string := String "010"%char EmptyString.

(** Two hostnames, one per line. *)
Definition two_hosts : string :=
  ("a.example.net" ++ nl ++ "b.example.net" ++ nl)%string.

Definition file_fs (t : string) : string -> FileState := fun _ => Text t.

(** A padded first line and a blank line. *)
Definition padded_hosts : string :=
  (" a.example.net" ++ nl ++ nl ++ "b.example.net" ++ nl)%string.

(** C7 for a file without extension holding two hostnames on two lines:
    the list gets the single entry [a.example.netb.example.net]; and for
    a [.txt] file with a padded line and a blank line, the padded line and
    the empty string are entries; a no-break space (U+00A0, bytes
    [C2 A0]) is whitespace too. *)
Lemma no_extension_merges_lines :
  file_fs two_hosts "cdns" = Text two_hosts /\
  compile_cdn_list sample_cdns no_parse no_parse no_parse (file_fs two_hosts) (Some "cdns") =
    Some (sort_dedup (sample_cdns ++ ["a.example.netb.example.net"])%list) /\
  compile_cdn_list sample_cdns no_parse no_parse no_parse (file_fs padded_hosts)
    (Some "cdns.txt") =
    Some (sort_dedup (sample_cdns ++ [" a.example.net"; ""; "b.example.net"])%list) /\
  compile_cdn_list sample_cdns no_parse no_parse no_parse
    (file_fs (String "a" (String "194" (String "160" "b")))) (Some "cdns") =
    Some (sort_dedup (sample_cdns ++ ["ab"])%list).
Proof.
  split; [reflexivity|]. split; [|split].
  - rewrite (proj2 (override_file_lines sample_cdns no_parse no_parse no_parse
                      (file_fs two_hosts) "cdns" two_hosts eq_refl) eq_refl).
    vm_compute. reflexivity.
  - rewrite (proj1 (proj1 (override_file_lines sample_cdns no_parse no_parse no_parse
                      (file_fs padded_hosts) "cdns.txt" padded_hosts eq_refl) eq_refl)).
    vm_compute. reflexivity.
  - rewrite (proj2 (override_file_lines sample_cdns no_parse no_parse no_parse
                      (file_fs (String "a" (String "194" (String "160" "b")))) "cdns"
                      (String "a" (String "194" (String "160" "b"))) eq_refl) eq_refl).
    vm_compute. reflexivity.
Defined.

End CdnClaims.

Module FixFacts.
Import Fix StrFacts.

Lemma bind_ret {A B} (a : A) (k : A -> M B) : mbind (mret a) k = k a.
Proof. unfold mbind, mret. destruct (k a). reflexivity. Qed.

Lemma bind_tell {B} (e : Effect) (k : unit -> M B) :
  mbind (tell e) k = (e :: fst (k tt), snd (k tt)).
Proof. unfold mbind, tell. destruct (k tt). reflexivity. Qed.

Lemma bind_halt {A B} (h : Halt) (k : A -> M B) : mbind (halt h) k = halt h.
Proof. reflexivity. Qed.

Lemma substring_app_r (a b : string) n :
  substring (String.length a) n (a ++ b) = substring 0 n b.
Proof. induction a as [|c a IH]; simpl; [reflexivity|]. exact IH. Qed.

Lemma ends_with_app (a suf : string) : Str.ends_with suf (a ++ suf) = true.
Proof.
  unfold Str.ends_with. rewrite length_app_s.
  replace (String.length a + String.length suf - String.length suf)%nat
    with (String.length a) by lia.
  rewrite substring_app_r, substring_full, String.eqb_refl.
  apply andb_true_intro. split; [apply Nat.leb_le; lia|reflexivity].
Qed.

End FixFacts.

Module FixClaims.
Import Fix FixFacts StrFacts.

Section Claims.
Variable http_get : string -> option (Z * option string).
Variable parse_media_playlist_res : string -> option MediaPlaylist.
Variable sort_str_slice : list string -> list string.
Variables create_ok write_ok : string -> bool.

Let run := fix_ http_get parse_media_playlist_res sort_str_slice create_ok write_ok.

Ltac mstep :=
  repeat first
    [ rewrite bind_ret | rewrite bind_tell | rewrite bind_halt
    | progress cbv beta iota zeta ].

(** The pattern method's segment, as a value. *)
Definition pattern_value (base_url : string) (s : MediaSegment) : MediaSegment :=
  if Str.contains "unmuted" (uri s) then
    segment_of (substring 0 (String.length (base_url ++ uri s) - 11) (base_url ++ uri s)
                ++ "-muted.ts") (duration s)
  else segment_of (base_url ++ uri s) (duration s).

(** The cut of the pattern method ([&url[..url.len() - 11]]) falls on a
    character boundary. *)
Definition cut_ok (base_url : string) (s : MediaSegment) : Prop :=
  Str.contains "unmuted" (uri s) = true ->
  is_char_boundary (base_url ++ uri s) (String.length (base_url ++ uri s) - 11) = true.

Lemma base_long p1 p2 p3 r :
  let b := ("https://" ++ p1 ++ "/" ++ p2 ++ "/" ++ p3 ++ "/")%string in
  (String.length (b ++ r) <? 11)%nat = false.
Proof.
  intros b. apply Nat.ltb_ge. unfold b.
  do 6 (rewrite ?length_app_s; cbn [String.append String.length]). lia.
Qed.

Lemma pattern_segment_value p1 p2 p3 s :
  let b := ("https://" ++ p1 ++ "/" ++ p2 ++ "/" ++ p3 ++ "/")%string in
  cut_ok b s -> pattern_segment b s = mret (pattern_value b s).
Proof.
  intros b Hcut. unfold cut_ok in Hcut. unfold pattern_segment, pattern_value.
  destruct (Str.contains "unmuted" (uri s)); [|reflexivity].
  unfold slice_end. rewrite (base_long p1 p2 p3). fold b. rewrite Hcut by reflexivity.
  rewrite bind_ret. reflexivity.
Qed.

Lemma pattern_segment_panic p1 p2 p3 s :
  let b := ("https://" ++ p1 ++ "/" ++ p2 ++ "/" ++ p3 ++ "/")%string in
  Str.contains "unmuted" (uri s) = true ->
  is_char_boundary (b ++ uri s) (String.length (b ++ uri s) - 11) = false ->
  pattern_segment b s = ([], inr Panic).
Proof.
  intros b Hu Hcut. unfold pattern_segment. rewrite Hu.
  unfold slice_end. rewrite (base_long p1 p2 p3). fold b. rewrite Hcut. reflexivity.
Qed.

Lemma pattern_segment_shape b s :
  fst (pattern_segment b s) = [] /\
  ((exists v, snd (pattern_segment b s) = inl v) \/ snd (pattern_segment b s) = inr Panic).
Proof.
  unfold pattern_segment. destruct (Str.contains _ _); [|split; [reflexivity|left; eexists; reflexivity]].
  unfold slice_end. destruct (_ <? _)%nat; [split; [reflexivity|right; reflexivity]|].
  destruct (is_char_boundary _ _); cbn;
    split; [reflexivity|left; eexists; reflexivity|reflexivity|right; reflexivity].
Qed.

Lemma mapM_pattern p1 p2 p3 segs :
  let b := ("https://" ++ p1 ++ "/" ++ p2 ++ "/" ++ p3 ++ "/")%string in
  Forall (cut_ok b) segs ->
  mapM (pattern_segment b) segs = mret (map (pattern_value b) segs).
Proof.
  intros b. induction 1 as [|s segs Hs _ IH]; [reflexivity|].
  cbn [mapM map]. pose proof (pattern_segment_value p1 p2 p3 s) as Hv.
  cbv zeta in Hv. fold b in Hv. rewrite (Hv Hs).
  rewrite bind_ret. cbv beta. rewrite IH, bind_ret. reflexivity.
Qed.

Lemma mapM_pattern_panic p1 p2 p3 segs :
  let b := ("https://" ++ p1 ++ "/" ++ p2 ++ "/" ++ p3 ++ "/")%string in
  Exists (fun s => Str.contains "unmuted" (uri s) = true /\
                   is_char_boundary (b ++ uri s) (String.length (b ++ uri s) - 11) = false) segs ->
  mapM (pattern_segment b) segs = ([], inr Panic).
Proof.
  intros b. induction 1 as [s segs [Hu Hc] | s segs _ IH].
  - cbn [mapM]. pose proof (pattern_segment_panic p1 p2 p3 s) as Hp. cbv zeta in Hp.
    fold b in Hp. rewrite (Hp Hu Hc). reflexivity.
  - cbn [mapM]. destruct (pattern_segment_shape b s) as [Hw [[v Hv]|Hv]];
      destruct (pattern_segment b s) as [w r]; cbn [fst snd] in *; subst.
    + cbn [mbind]. rewrite IH. reflexivity.
    + reflexivity.
Qed.

(** Once the host test passes: a panic with no effect, or the playlist
    request first. *)
Lemma fix_after_check url output old_method :
  (Str.contains "twitch.tv" url || Str.contains "cloudfront.net" url) = true ->
  ((List.length (fix_regex url) < 4)%nat -> run url output old_method = ([], inr Panic)) /\
  ((4 <= List.length (fix_regex url))%nat ->
     exists rest r, run url output old_method = (NetGet url :: rest, r)).
Proof.
  intros Hc. unfold run, fix_. rewrite Hc. cbn [negb]. rewrite bind_ret.
  destruct (fix_regex url) as [|p0 [|p1 [|p2 [|p3 rest]]]];
    cbn [List.length]; split; intros Hl; try lia;
    unfold index; cbn [nth_error]; mstep; try reflexivity.
  eexists. eexists. reflexivity.
Qed.

(** C1: the test of [fix] is a substring test on the whole URL text: a
    URL in which neither [twitch.tv] nor [cloudfront.net] occurs fails
    with [PlaylistFix::URL] after the error line and before any request;
    a URL in which one of them occurs anywhere passes it, and then panics
    before any effect when the whole URL has fewer than four maximal runs
    of characters other than [/] ([FIX_REGEX] matches, [https:] being the
    first), or else requests the playlist first. *)
Theorem fix_url_check url output old_method :
  ((Str.contains "twitch.tv" url || Str.contains "cloudfront.net" url) = false ->
     run url output old_method = ([LogError url_error_msg], inr (Err URL))) /\
  ((Str.contains "twitch.tv" url || Str.contains "cloudfront.net" url) = true ->
     ((List.length (fix_regex url) < 4)%nat -> run url output old_method = ([], inr Panic)) /\
     ((4 <= List.length (fix_regex url))%nat ->
        exists rest r, run url output old_method = (NetGet url :: rest, r))).
Proof.
  split.
  - intros Hc. unfold run, fix_. rewrite Hc. cbn [negb].
    rewrite bind_tell. reflexivity.
  - intros Hc. exact (fix_after_check url output old_method Hc).
Qed.

(** C10: past the host test, [fix] indexes the components 1, 2 and 3 of
    [FIX_REGEX]; with fewer than four components it panics before any
    effect, with four or more it requests the playlist. *)
Theorem fix_base_url_panics url output old_method :
  (Str.contains "twitch.tv" url || Str.contains "cloudfront.net" url) = true ->
  ((List.length (fix_regex url) < 4)%nat -> run url output old_method = ([], inr Panic)) /\
  ((4 <= List.length (fix_regex url))%nat ->
     exists rest r, run url output old_method = (NetGet url :: rest, r)).
Proof. intros Hc. exact (fix_after_check url output old_method Hc). Qed.

(** C2: when the body does not parse as a media playlist, [fix] logs the
    error and goes on: it creates the output file and writes the default,
    empty playlist to it, and returns [Ok]. *)
Theorem fix_parse_error_writes_default url output old_method p0 p1 p2 p3 rest status body :
  (Str.contains "twitch.tv" url || Str.contains "cloudfront.net" url) = true ->
  fix_regex url = p0 :: p1 :: p2 :: p3 :: rest ->
  http_get url = Some (status, Some body) ->
  parse_media_playlist_res body = None ->
  let path := match output with Some p => p | None => ("muted_" ++ p2 ++ ".m3u8")%string end in
  create_ok path = true -> write_ok path = true ->
  run url output old_method =
    ([NetGet url; LogError unmute_error_msg; FileCreate path; FileWrite path default_playlist],
     inl tt).
Proof.
  intros Hc Hp Hg Hparse path Hcr Hwr. unfold run, fix_. rewrite Hc, Hp. cbn [negb].
  unfold index. cbn [nth_error]. mstep. rewrite Hg. mstep. cbn [snd]. mstep.
  rewrite Hparse. mstep.
  destruct output as [p|]; unfold path in Hcr, Hwr; cbv iota in Hcr, Hwr;
      cbv [mbind mret tell halt fst snd app]; rewrite Hcr, Hwr;
    reflexivity.
Qed.

(** C4: in pattern mode a parsed playlist of N segments, each of whose
    cuts falls on a character boundary, gives a written playlist of N
    segments, in order, with their durations; the URI of a segment whose
    URI contains [unmuted] is the absolute URL [base_url ++ uri] less its
    last 11 bytes, then [-muted.ts]; any other URI becomes the absolute
    URL [base_url ++ uri].  When the cut of a segment whose URI contains
    [unmuted] falls inside a multi-byte character, [fix] panics after the
    playlist request, before creating any file. *)
Theorem pattern_mode_segments url output p0 p1 p2 p3 rest status body pl :
  (Str.contains "twitch.tv" url || Str.contains "cloudfront.net" url) = true ->
  fix_regex url = p0 :: p1 :: p2 :: p3 :: rest ->
  http_get url = Some (status, Some body) ->
  parse_media_playlist_res body = Some pl ->
  let base_url := ("https://" ++ p1 ++ "/" ++ p2 ++ "/" ++ p3 ++ "/")%string in
  let path := match output with Some p => p | None => ("muted_" ++ p2 ++ ".m3u8")%string end in
  create_ok path = true -> write_ok path = true ->
  (Forall (cut_ok base_url) (segments pl) ->
   exists out,
    run url output false = ([NetGet url; FileCreate path; FileWrite path out], inl tt) /\
    List.length (segments out) = List.length (segments pl) /\
    map duration (segments out) = map duration (segments pl) /\
    Forall2 (fun s o =>
      (Str.contains "unmuted" (uri s) = true ->
         uri o = (substring 0 (String.length (base_url ++ uri s) - 11) (base_url ++ uri s)
                  ++ "-muted.ts")%string /\
         Str.ends_with "-muted.ts" (uri o) = true) /\
      (Str.contains "unmuted" (uri s) = false -> uri o = (base_url ++ uri s)%string))
      (segments pl) (segments out)) /\
  (Exists (fun s => Str.contains "unmuted" (uri s) = true /\
         is_char_boundary (base_url ++ uri s) (String.length (base_url ++ uri s) - 11) = false)
      (segments pl) ->
   run url output false = ([NetGet url], inr Panic)).
Proof.
  intros Hc Hp Hg Hparse base_url path Hcr Hwr. split.
  - intros Hcut. eexists. split.
    + unfold run, fix_. rewrite Hc, Hp. cbn [negb].
      unfold index. cbn [nth_error]. mstep. rewrite Hg. mstep. cbn [snd]. mstep.
      rewrite Hparse. mstep. rewrite (mapM_pattern p1 p2 p3 _ Hcut). mstep.
      destruct output as [p|]; unfold path in Hcr, Hwr; cbv iota in Hcr, Hwr;
        cbv [mbind mret tell halt fst snd app]; rewrite Hcr, Hwr;
        reflexivity.
    + cbn [segments]. fold base_url. split; [apply length_map|]. split.
      * rewrite map_map. apply map_ext. intros s. unfold pattern_value.
        destruct (Str.contains "unmuted" (uri s)); reflexivity.
      * clear Hcut. induction (segments pl) as [|s segs IH]; constructor; [|exact IH].
        unfold pattern_value. split; intros Hu; rewrite Hu in *; [|reflexivity || discriminate].
        split; [reflexivity|]. cbn [uri segment_of]. apply ends_with_app.
  - intros Hbad. unfold run, fix_. rewrite Hc, Hp. cbn [negb].
    unfold index. cbn [nth_error]. mstep. rewrite Hg. mstep. cbn [snd]. mstep.
    rewrite Hparse. rewrite (mapM_pattern_panic p1 p2 p3 _ Hbad). reflexivity.
Qed.

End Claims.

(** A network where every request fails and a parser that fails. *)
Definition no_net : string -> option (Z * option string) := fun _ => None.
Definition no_playlist : string -> option MediaPlaylist := fun _ => None.
Definition always : string -> bool := fun _ => true.

(** C1 at a URL of host [example.com] with [twitch.tv] in its path: it
    passes the test and is requested. *)
Lemma other_host_is_requested :
  fix_ no_net no_playlist (fun l => l) always always
    "https://example.com/twitch.tv/a/b" None false =
  ([NetGet "https://example.com/twitch.tv/a/b"], inr (Err Reqwest)).
Proof. vm_compute. reflexivity. Defined.

(** C1 at a URL of another host, rejected, and at
    [https://twitch.tv/a/b/c], whose five components [https:],
    [twitch.tv], [a], [b], [c] let it reach the request. *)
Lemma fix_url_check_witness :
  fix_ no_net no_playlist (fun l => l) always always "https://example.com/a" None false =
    ([LogError url_error_msg], inr (Err URL)) /\
  exists rest r,
    fix_ no_net no_playlist (fun l => l) always always "https://twitch.tv/a/b/c" None false =
      (NetGet "https://twitch.tv/a/b/c" :: rest, r).
Proof.
  split.
  - apply (proj1 (fix_url_check no_net no_playlist (fun l => l) always always
                    "https://example.com/a" None false)).
    vm_compute. reflexivity.
  - apply (proj2 (proj2 (fix_url_check no_net no_playlist (fun l => l) always always
                           "https://twitch.tv/a/b/c" None false) ltac:(vm_compute; reflexivity))).
    vm_compute. lia.
Defined.

(** C10 at [https://twitch.tv]: two components, a panic. *)
Lemma short_url_panics :
  (Str.contains "twitch.tv" "https://twitch.tv" || Str.contains "cloudfront.net" "https://twitch.tv")
    = true /\
  fix_ no_net no_playlist (fun l => l) always always "https://twitch.tv" None false =
    ([], inr Panic).
Proof.
  split; [vm_compute; reflexivity|].
  apply (proj1 (fix_base_url_panics no_net no_playlist (fun l => l) always always
                  "https://twitch.tv" None false eq_refl)).
  vm_compute. lia.
Defined.

Definition sample_url : string :=
  "https://d2vjef5jvl6bfs.cloudfront.net/d3dcbaf880c9e36ed8c8_dansgaming_42218705421_1622854217/chunked/index-dvr.m3u8".

(** A server answering every request with a body that is no playlist. *)
Definition html_net : string -> option (Z * option string) :=
  fun _ => Some (200, Some "<html></html>").

(** C2 at [sample_url] with a body that is not a playlist: the file
    [muted_d3dcbaf880c9e36ed8c8_dansgaming_42218705421_1622854217.m3u8] is
    written with the default playlist. *)
Lemma unparsable_body_written :
  (Str.contains "twitch.tv" sample_url || Str.contains "cloudfront.net" sample_url) = true /\
  fix_ html_net no_playlist (fun l => l) always always sample_url None false =
    ([NetGet sample_url; LogError unmute_error_msg;
      FileCreate "muted_d3dcbaf880c9e36ed8c8_dansgaming_42218705421_1622854217.m3u8";
      FileWrite "muted_d3dcbaf880c9e36ed8c8_dansgaming_42218705421_1622854217.m3u8"
        default_playlist], inl tt).
Proof.
  split; [vm_compute; reflexivity|].
  apply (fix_parse_error_writes_default html_net no_playlist (fun l => l) always always
           sample_url None false "https:" "d2vjef5jvl6bfs.cloudfront.net"
           "d3dcbaf880c9e36ed8c8_dansgaming_42218705421_1622854217" "chunked"
           ["index-dvr.m3u8"] 200 "<html></html>");
    vm_compute; reflexivity.
Defined.

(** A playlist with a segment already named [-muted.ts] and a plain one. *)
Definition two_segments : MediaPlaylist :=
  {| version := Some 3; target_duration := 10; media_sequence := 0;
     segments := [segment_of "0-muted.ts" 10; segment_of "1.ts" 10];
     discontinuity_sequence := 0; end_list := true; playlist_type := Some Vod;
     i_frames_only := false; independent_segments := false |}.

Definition vod_url : string := "https://vod-secure.twitch.tv/h_u_1_2/chunked/index-dvr.m3u8".

(** C4 with no URI containing [unmuted] (M = 0): the first output URI
    still ends in [-muted.ts], and [1.ts] is not emitted unchanged. *)
Lemma pattern_mode_rewrites_all :
  fix_ html_net (fun _ => Some two_segments) (fun l => l) always always vod_url None false =
  ([NetGet vod_url; FileCreate "muted_h_u_1_2.m3u8";
    FileWrite "muted_h_u_1_2.m3u8"
      {| version := Some 3; target_duration := 10; media_sequence := 0;
         segments := [segment_of "https://vod-secure.twitch.tv/h_u_1_2/chunked/0-muted.ts" 10;
                      segment_of "https://vod-secure.twitch.tv/h_u_1_2/chunked/1.ts" 10];
         discontinuity_sequence := 0; end_list := true; playlist_type := Some Vod;
         i_frames_only := false; independent_segments := false |}], inl tt).
Proof. vm_compute. reflexivity. Defined.

(** A playlist with an [unmuted] segment between two others. *)
Definition three_segments : MediaPlaylist :=
  {| version := Some 3; target_duration := 10; media_sequence := 0;
     segments := [segment_of "0.ts" 10; segment_of "1-unmuted.ts" 10; segment_of "2.ts" 4];
     discontinuity_sequence := 0; end_list := true; playlist_type := Some Vod;
     i_frames_only := false; independent_segments := false |}.

(** [e] with an acute accent: two bytes in UTF-8. *)
Definition e_acute : string := String "195"%char (String "169"%char EmptyString).

(** A segment URI ending in six two-byte characters after [unmuted]: the
    cut 11 bytes before the end falls inside the first of them. *)
Definition accented_segments : MediaPlaylist :=
  {| version := Some 3; target_duration := 10; media_sequence := 0;
     segments := [segment_of ("unmuted" ++ e_acute ++ e_acute ++ e_acute ++ e_acute
                              ++ e_acute ++ e_acute) 10];
     discontinuity_sequence := 0; end_list := true; playlist_type := Some Vod;
     i_frames_only := false; independent_segments := false |}.

(** C4 at [three_segments], through the theorem; and at
    [accented_segments], the panic. *)
Lemma pattern_mode_segments_witness :
  (exists out,
    fix_ html_net (fun _ => Some three_segments) (fun l => l) always always vod_url None false =
      ([NetGet vod_url; FileCreate "muted_h_u_1_2.m3u8"; FileWrite "muted_h_u_1_2.m3u8" out],
       inl tt) /\
    List.length (segments out) = 3%nat /\
    map duration (segments out) = [10; 10; 4]) /\
  fix_ html_net (fun _ => Some accented_segments) (fun l => l) always always vod_url None false =
    ([NetGet vod_url], inr Panic).
Proof.
  split.
  - destruct (pattern_mode_segments html_net (fun _ => Some three_segments) (fun l => l) always
                always vod_url None "https:" "vod-secure.twitch.tv" "h_u_1_2" "chunked"
                ["index-dvr.m3u8"] 200 "<html></html>" three_segments)
      as [H1 _]; try (vm_compute; reflexivity).
    destruct H1 as [out [Hrun [Hlen [Hdur _]]]].
    + repeat constructor; unfold cut_ok; vm_compute; intros H;
        first [reflexivity | discriminate H].
    + exists out. split; [exact Hrun|]. split; [exact Hlen|exact Hdur].
  - pose proof (pattern_mode_segments html_net (fun _ => Some accented_segments) (fun l => l)
                always always vod_url None "https:" "vod-secure.twitch.tv" "h_u_1_2" "chunked"
                ["index-dvr.m3u8"] 200 "<html></html>" accented_segments
                ltac:(vm_compute; reflexivity) ltac:(vm_compute; reflexivity)
                ltac:(vm_compute; reflexivity) ltac:(vm_compute; reflexivity)
                ltac:(vm_compute; reflexivity) ltac:(vm_compute; reflexivity)) as [_ H2].
    apply H2. apply Exists_cons_hd. split; vm_compute; reflexivity.
Defined.

End FixClaims.

Module ProbeClaims.
Import Probe.

Lemma in_range start end_ x : In x (range start end_) <-> start <= x < end_.
Proof.
  unfold range. rewrite in_map_iff. split.
  - intros [i [<- Hi]]. apply in_seq in Hi. lia.
  - intros H. exists (Z.to_nat (x - start)). split; [lia|]. apply in_seq. lia.
Qed.

(** C8: a VOD probe keeps a 200, drops a 403 or a 404 with no throttling
    line, and drops any other status with one; a clip probe keeps a 200,
    drops a 403 quietly, and prints the throttling line for a 404 as for
    any other status; an error of [send()] drops the candidate in both,
    after one request. *)
Theorem probe_classification verbose u cu :
  fst (vod_probe verbose u (Some 200)) = Some u /\
  vod_probe verbose u (Some 403) = (None, (if verbose then [StillGoing] else [])) /\
  vod_probe verbose u (Some 404) = (None, (if verbose then [StillGoing] else [])) /\
  (forall status, status <> 200 -> status <> 403 -> status <> 404 ->
     vod_probe verbose u (Some status) = (None, [Throttled status])) /\
  vod_probe verbose u None = (None, [ReqwestError]) /\
  fst (clip_probe verbose cu (Some 200)) = Some {| url := cu; muted := false |} /\
  clip_probe verbose cu (Some 403) = (None, CheckingURL 403 :: (if verbose then [StillGoing] else [])) /\
  clip_probe verbose cu (Some 404) = (None, [CheckingURL 404; Throttled 404]) /\
  (forall status, status <> 200 -> status <> 403 ->
     clip_probe verbose cu (Some status) = (None, [CheckingURL status; Throttled status])) /\
  clip_probe verbose cu None = (None, [ErrorSending]).
Proof.
  repeat split; try reflexivity.
  - intros st H1 H2 H3. unfold vod_probe.
    apply Z.eqb_neq in H1, H2, H3. rewrite H1, H2, H3. reflexivity.
  - intros st H1 H2. unfold clip_probe.
    apply Z.eqb_neq in H1, H2. rewrite H1, H2. reflexivity.
Qed.

(** C9: [clip_bruteforce] requests the offsets of [start..end], which
    leaves [end] out: [end - start] URLs, one per offset [n] with
    [start <= n < end]; from 10 to 12 that is two URLs. *)
Theorem clip_urls_half_open vod start end_ :
  List.length (clip_urls vod start end_) = Z.to_nat (end_ - start) /\
  (forall u, In u (clip_urls vod start end_) <->
             exists n, start <= n < end_ /\ u = clip_url (Str.of_Z vod) n) /\
  clip_urls 42 10 12 =
    ["https://clips-media-assets2.twitch.tv/42-offset-10.mp4";
     "https://clips-media-assets2.twitch.tv/42-offset-11.mp4"].
Proof.
  split; [unfold clip_urls, range; rewrite !length_map, length_seq; reflexivity|].
  split; [|vm_compute; reflexivity].
  intros u. unfold clip_urls. rewrite in_map_iff. split.
  - intros [n [<- Hn]]. exists n. split; [apply in_range; exact Hn|reflexivity].
  - intros [n [Hn ->]]. exists n. split; [reflexivity|apply in_range; exact Hn].
Qed.

End ProbeClaims.

Module TimestampTextFacts.
Import Timestamp TimestampText TimestampFacts.

Lemma digit_is_digit k : 0 <= k < 10 ->
  Str.is_digit (digit k) = true /\ Str.digit_val (digit k) = k.
Proof.
  intros Hk. unfold digit, Str.is_digit, Str.digit_val.
  rewrite nat_ascii_embedding by lia.
  split; [apply andb_true_intro; split; apply Nat.leb_le; lia | lia].
Qed.


Lemma digits_acc_pad n acc x r :
  0 <= x < 10 ^ Z.of_nat n ->
  digits_acc n acc (zero_pad n x ++ r) = Some (acc * 10 ^ Z.of_nat n + x, r).
Proof.
  revert acc x. induction n as [|n IH]; intros acc x Hx.
  - change (10 ^ Z.of_nat 0) with 1 in *. assert (x = 0) as -> by lia. cbn. rewrite Z.mul_1_r, Z.add_0_r. reflexivity.
  - assert (Hp : 0 < 10 ^ Z.of_nat n) by (apply Z.pow_pos_nonneg; lia).
    rewrite Nat2Z.inj_succ, Z.pow_succ_r in Hx by lia.
    assert (Hq : 0 <= x / 10 ^ Z.of_nat n < 10).
    { split; [apply Z.div_pos; lia | apply Z.div_lt_upper_bound; lia]. }
    assert (Hm : 0 <= x mod 10 ^ Z.of_nat n < 10 ^ Z.of_nat n) by (apply Z.mod_pos_bound; lia).
    destruct (digit_is_digit _ Hq) as [Hd Hv].
    cbn [zero_pad String.append digits_acc]. unfold bind at 1, any_char at 1.
    rewrite Hd, Hv, IH by exact Hm.
    f_equal. f_equal.
    rewrite Nat2Z.inj_succ, Z.pow_succ_r by lia.
    pose proof (Z.div_mod x (10 ^ Z.of_nat n)) as E. lia.
Qed.

Lemma digits_pad n x r :
  0 <= x < 10 ^ Z.of_nat n -> digits n (zero_pad n x ++ r) = Some (x, r).
Proof. intros H. unfold digits. rewrite digits_acc_pad by exact H. reflexivity. Qed.

Lemma digits_pad_nil n x :
  0 <= x < 10 ^ Z.of_nat n -> digits n (zero_pad n x) = Some (x, EmptyString).
Proof. intros H. rewrite <- (StrFacts.app_nil_r_s (zero_pad n x)). apply digits_pad, H. Qed.

Lemma pad_head n x r :
  (zero_pad (S n) x ++ r) = String (digit (x / 10 ^ Z.of_nat n)) (zero_pad n (x mod 10 ^ Z.of_nat n) ++ r).
Proof. reflexivity. Qed.

Lemma pad_first n x : 0 <= x < 10 ^ Z.of_nat (S n) -> 0 <= x / 10 ^ Z.of_nat n < 10.
Proof.
  intros Hx. assert (0 < 10 ^ Z.of_nat n) by (apply Z.pow_pos_nonneg; lia).
  rewrite Nat2Z.inj_succ, Z.pow_succ_r in Hx by lia.
  split; [apply Z.div_pos; lia | apply Z.div_lt_upper_bound; lia].
Qed.

Lemma pad_rest n x : 0 <= x mod 10 ^ Z.of_nat n < 10 ^ Z.of_nat n.
Proof. apply Z.mod_pos_bound. apply Z.pow_pos_nonneg; lia. Qed.

Lemma sforall_pad f n x :
  (forall k, 0 <= k < 10 -> f (digit k) = true) ->
  0 <= x < 10 ^ Z.of_nat n -> Str.sforall f (zero_pad n x) = true.
Proof.
  intros Hf. revert x. induction n as [|n IH]; intros x Hx; [reflexivity|].
  cbn [zero_pad Str.sforall]. rewrite (Hf _ (pad_first n x Hx)), IH by apply pad_rest.
  reflexivity.
Qed.

Lemma digit_neq k c : 0 <= k < 10 ->
  (nat_of_ascii c < 48 \/ 57 < nat_of_ascii c)%nat -> Ascii.eqb (digit k) c = false.
Proof.
  intros Hk Hc. destruct (Ascii.eqb_spec (digit k) c) as [<-|]; [|reflexivity].
  unfold digit in Hc. rewrite nat_ascii_embedding in Hc by lia. lia.
Qed.

Lemma bind_eq {A B} (p : Parser A) (k : A -> Parser B) s a r :
  p s = Some (a, r) -> bind p k s = k a r.
Proof. intros H. unfold bind. rewrite H. reflexivity. Qed.

Lemma bind_none {A B} (p : Parser A) (k : A -> Parser B) s :
  p s = None -> bind p k s = None.
Proof. intros H. unfold bind. rewrite H. reflexivity. Qed.

(** No fewer than [m] digits: a non-digit after [n < m] digits fails. *)
Lemma digits_acc_short m n acc x c r :
  (n < m)%nat -> 0 <= x < 10 ^ Z.of_nat n -> Str.is_digit c = false ->
  digits_acc m acc (zero_pad n x ++ String c r) = None.
Proof.
  revert m acc x. induction n as [|n IH]; intros m acc x Hnm Hx Hc.
  - destruct m as [|m]; [lia|]. cbn [zero_pad String.append digits_acc].
    unfold bind, any_char. rewrite Hc. reflexivity.
  - destruct m as [|m]; [lia|]. cbn [digits_acc]. rewrite pad_head.
    destruct (digit_is_digit _ (pad_first n x Hx)) as [Hd _].
    unfold bind at 1, any_char at 1. rewrite Hd. apply IH; [lia|apply pad_rest|exact Hc].
Qed.

Lemma year_pad y r : 0 <= y <= 9999 -> year (zero_pad 4 y ++ r) = Some (y, r).
Proof.
  intros Hy. unfold year.
  assert (Hq : 0 <= y / 10 ^ Z.of_nat 3 < 10) by (apply pad_first; cbn; lia).
  rewrite (bind_eq _ _ _ None (zero_pad 4 y ++ r)).
  - rewrite bind_eq with (a := y) (r := r) by (apply digits_pad; cbn; lia). reflexivity.
  - unfold opt. rewrite pad_head. cbn [any_char].
    rewrite !digit_neq by first [exact Hq | cbn; lia]. reflexivity.
Qed.

Lemma year_short n x c r :
  (0 < n < 4)%nat -> 0 <= x < 10 ^ Z.of_nat n -> Str.is_digit c = false ->
  year (zero_pad n x ++ String c r) = None.
Proof.
  intros Hn Hx Hc. unfold year. destruct n as [|n]; [lia|].
  rewrite (bind_eq _ _ _ None (zero_pad (S n) x ++ String c r)).
  - apply bind_none. apply digits_acc_short; [lia|exact Hx|exact Hc].
  - unfold opt. rewrite pad_head. cbn [any_char].
    rewrite !digit_neq by first [apply pad_first; exact Hx | cbn; lia]. reflexivity.
Qed.

Lemma digit_noU k : 0 <= k < 10 -> noU (digit k) = true.
Proof. intros Hk. unfold noU. rewrite digit_neq by (cbn; lia). reflexivity. Qed.

Lemma digit_isd k : 0 <= k < 10 -> Str.is_digit (digit k) = true.
Proof. intros Hk. apply digit_is_digit, Hk. Qed.

Lemma no_UTC s : Str.sforall noU s = true -> Str.contains "UTC" s = false.
Proof.
  intros H. destruct (Str.contains "UTC" s) eqn:E; [|reflexivity].
  rewrite (contains_UTC_not_noU _ E) in H. discriminate.
Qed.

Lemma contains_app_r pat a b :
  Str.contains pat b = true -> Str.contains pat (a ++ b) = true.
Proof.
  intros H. induction a as [|c a IH]; [exact H|].
  cbn [String.append Str.contains]. destruct (String.prefix pat _); [reflexivity|exact IH].
Qed.

Lemma bind_assoc {A B C} (p : Parser A) (f : A -> Parser B) (k : B -> Parser C) s :
  bind (bind p f) k s = bind p (fun a => bind (f a) k) s.
Proof. unfold bind. destruct (p s) as [[a r]|]; reflexivity. Qed.

Lemma pad_split m n x : 0 <= x < 10 ^ Z.of_nat (m + n) ->
  zero_pad (m + n) x = zero_pad m (x / 10 ^ Z.of_nat n) ++ zero_pad n (x mod 10 ^ Z.of_nat n).
Proof.
  revert x. induction m as [|m IH]; intros x Hx.
  - cbn [Nat.add zero_pad String.append]. rewrite Z.mod_small by exact Hx. reflexivity.
  - assert (HB : 0 < 10 ^ Z.of_nat n) by (apply Z.pow_pos_nonneg; lia).
    assert (HC : 0 < 10 ^ Z.of_nat m) by (apply Z.pow_pos_nonneg; lia).
    assert (HBC : 10 ^ Z.of_nat (m + n) = 10 ^ Z.of_nat n * 10 ^ Z.of_nat m)
      by (rewrite Nat2Z.inj_add, Z.pow_add_r by lia; ring).
    change (S m + n)%nat with (S (m + n)). cbn [zero_pad String.append].
    rewrite IH by apply pad_rest. rewrite HBC.
    rewrite (Z.rem_mul_r x (10 ^ Z.of_nat n) (10 ^ Z.of_nat m) ltac:(lia) HC).
    assert (Hr : 0 <= x mod 10 ^ Z.of_nat n < 10 ^ Z.of_nat n) by (apply Z.mod_pos_bound; lia).
    rewrite (Z.mul_comm (10 ^ Z.of_nat n) ((x / _) mod _)).
    rewrite Z.div_add by lia. rewrite (Z.div_small (x mod 10 ^ Z.of_nat n) (10 ^ Z.of_nat n) Hr), Z.add_0_l.
    rewrite Z.mod_add, Z.mod_mod by lia.
    rewrite <- Z.div_div by lia. reflexivity.
Qed.

Lemma digits_pad_long m j x r : 0 <= x < 10 ^ Z.of_nat (m + j) ->
  digits m (zero_pad (m + j) x ++ r) = Some (x / 10 ^ Z.of_nat j, zero_pad j (x mod 10 ^ Z.of_nat j) ++ r).
Proof.
  intros Hx. rewrite pad_split by exact Hx. rewrite StrFacts.app_assoc_s.
  apply digits_pad.
  assert (0 < 10 ^ Z.of_nat j) by (apply Z.pow_pos_nonneg; lia).
  rewrite Nat2Z.inj_add, Z.pow_add_r in Hx by lia.
  split; [apply Z.div_pos; lia | apply Z.div_lt_upper_bound; lia].
Qed.

Lemma lit_pad c n x r : Str.is_digit c = false -> 0 <= x < 10 ^ Z.of_nat (S n) ->
  lit c (zero_pad (S n) x ++ r) = None.
Proof.
  intros Hc Hx. rewrite pad_head. cbn [lit].
  destruct (Ascii.eqb_spec c (digit (x / 10 ^ Z.of_nat n))) as [E|]; [|reflexivity].
  destruct (digit_is_digit _ (pad_first n x Hx)) as [Hd _]. congruence.
Qed.

Ltac pstep :=
  match goal with
  | |- context [bind (bind ?p ?f) ?k ?s] => rewrite (bind_assoc p f k s)
  | |- context [bind (digits ?n) ?k (zero_pad ?n ?x ++ ?r)] =>
      rewrite (bind_eq (digits n) k (zero_pad n x ++ r) x r) by (apply digits_pad; cbn; lia)
  | |- context [bind (digits ?n) ?k (zero_pad ?n ?x)] =>
      rewrite (bind_eq (digits n) k (zero_pad n x) x EmptyString) by (apply digits_pad_nil; cbn; lia)
  | |- context [bind year ?k (zero_pad 4 ?x ++ ?r)] =>
      rewrite (bind_eq year k (zero_pad 4 x ++ r) x r) by (apply year_pad; lia)
  | |- context [bind year ?k (zero_pad ?n ?x ++ String ?c ?r)] =>
      rewrite (bind_none year k (zero_pad n x ++ String c r)) by (apply year_short; [lia | cbn; lia | reflexivity])
  | |- context [bind (digits ?m) ?k (zero_pad ?n ?x ++ String ?c ?r)] =>
      rewrite (bind_none (digits m) k (zero_pad n x ++ String c r)) by (apply digits_acc_short; [lia | cbn; lia | reflexivity])
  | |- context [bind (digits ?m) ?k (zero_pad ?n ?x ++ ?r)] =>
      let j := eval compute in (n - m)%nat in
      change (zero_pad n x) with (zero_pad (m + j) x);
      rewrite (bind_eq (digits m) k (zero_pad (m + j) x ++ r) _ _ (digits_pad_long m j x r ltac:(cbn; lia)))
  | |- context [bind (lit ?c) ?k (zero_pad ?n ?x ++ ?r)] =>
      rewrite (bind_none (lit c) k (zero_pad n x ++ r)) by (apply lit_pad; [reflexivity | first [apply pad_rest | cbn; lia]])
  | |- context [bind ?p ?k ?s] =>
      first [ rewrite (bind_eq p k s _ _ eq_refl) | rewrite (bind_none p k s eq_refl) ]
  end; cbv beta iota; cbn [String.append].

Ltac strings_tac :=
  unfold Str.all_digits;
  repeat (first [rewrite sforall_app | progress cbn [String.append Str.sforall]]);
  repeat (rewrite sforall_pad by first [exact digit_noU | exact digit_isd | cbn; lia]);
  reflexivity.

Lemma printable_ranges d : printable d = true ->
  0 <= dt_year d <= 9999 /\ 0 <= dt_month d < 100 /\ 0 <= dt_day d < 100 /\
  0 <= dt_hour d < 100 /\ 0 <= dt_minute d < 100 /\ 0 <= dt_second d < 100.
Proof.
  unfold printable. intros H. repeat rewrite andb_true_iff in H.
  rewrite !Z.leb_le, !Z.ltb_lt in H. lia.
Qed.

(** [parse_timestamp] (src/util.rs) on an RFC 3339 text
    [YYYY-MM-DDTHH:MM:SS] followed by [Z] or by a numeric offset
    [+HH:MM] / [-HH:MM]: the offset does not change the result, and the
    result is the Unix time of the fields read as UTC when they form a
    valid date, [None] otherwise. *)
Theorem rfc3339_offset_ignored d sign oh om :
  printable d = true -> (sign = "+"%char \/ sign = "-"%char) ->
  0 <= oh <= 23 -> 0 <= om <= 59 ->
  parse_timestamp (render_rfc3339 d (String sign (zero_pad 2 oh ++ ":" ++ zero_pad 2 om)))
  = parse_timestamp (render_rfc3339 d "Z") /\
  parse_timestamp (render_rfc3339 d "Z") =
  (if valid d then Some (unix_timestamp d) else None).
Proof.
  intros Hp Hs Hoh Hom. apply printable_ranges in Hp.
  destruct d as [y mo dd h mi se]; cbn [dt_year dt_month dt_day dt_hour dt_minute dt_second] in *.
  unfold parse_timestamp, render_rfc3339; cbn [dt_year dt_month dt_day dt_hour dt_minute dt_second].
  replace (Str.all_digits _) with false by (symmetry; strings_tac).
  replace (Str.all_digits _) with false by (symmetry; strings_tac).
  replace (Str.contains "UTC" _) with false by (symmetry; apply no_UTC; destruct Hs as [-> | ->]; strings_tac).
  replace (Str.contains "UTC" _) with false by (symmetry; apply no_UTC; strings_tac).
  unfold parse_utc, run, rfc3339, format_wo_utc, date_time_prefix, format_wo_sec, finish.
  assert (Hz : ((oh <=? 23) && (om <=? 59)) = true) by (apply andb_true_intro; split; apply Z.leb_le; lia).
  destruct (valid (mkDT y mo dd h mi se)) eqn:Hv;
    destruct Hs as [-> | ->]; repeat (first [pstep | rewrite Hv | rewrite Hz]); cbv [ret]; cbn [option_map]; split; reflexivity.
Qed.

Lemma contains_cons_r pat c s :
  Str.contains pat s = true -> Str.contains pat (String c s) = true.
Proof. intros H. cbn [Str.contains]. destruct (String.prefix pat _); [reflexivity|exact H]. Qed.

(** [parse_timestamp] (src/util.rs) on [YYYY-MM-DD HH:MM:SS], bare or
    followed by [ UTC]: the Unix time of the fields read as UTC when they
    form a valid date, [None] otherwise. *)
Theorem date_time_round_trip d :
  printable d = true ->
  parse_timestamp (render_date_time d "") =
  (if valid d then Some (unix_timestamp d) else None) /\
  parse_timestamp (render_date_time d " UTC") =
  (if valid d then Some (unix_timestamp d) else None).
Proof.
  intros Hp. apply printable_ranges in Hp.
  destruct d as [y mo dd h mi se]; cbn [dt_year dt_month dt_day dt_hour dt_minute dt_second] in *.
  unfold parse_timestamp, render_date_time; cbn [dt_year dt_month dt_day dt_hour dt_minute dt_second].
  replace (Str.all_digits _) with false by (symmetry; strings_tac).
  replace (Str.all_digits _) with false by (symmetry; strings_tac).
  replace (Str.contains "UTC" _) with false by (symmetry; apply no_UTC; strings_tac).
  replace (Str.contains "UTC" _) with true
    by (symmetry; repeat (first [reflexivity | apply contains_app_r | apply contains_cons_r])).
  unfold parse_utc, run, rfc3339, format_wo_utc, format_with_utc, date_time_prefix, format_wo_sec, finish.
  destruct (valid (mkDT y mo dd h mi se)) eqn:Hv;
    repeat (first [pstep | rewrite Hv]); cbv [ret]; cbn [option_map]; split; reflexivity.
Qed.

(** [parse_timestamp] (src/util.rs) on [DD-MM-YYYY HH:MM] (the format
    without seconds): the Unix time of those fields at second [0], read
    as UTC, when they form a valid date, [None] otherwise. *)
Theorem wo_sec_round_trip d :
  printable d = true ->
  parse_timestamp (render_wo_sec d) =
  (let d0 := mkDT (dt_year d) (dt_month d) (dt_day d) (dt_hour d) (dt_minute d) 0 in
   if valid d0 then Some (unix_timestamp d0) else None).
Proof.
  intros Hp. apply printable_ranges in Hp.
  destruct d as [y mo dd h mi se]; cbn [dt_year dt_month dt_day dt_hour dt_minute dt_second] in *.
  unfold parse_timestamp, render_wo_sec; cbn [dt_year dt_month dt_day dt_hour dt_minute dt_second].
  replace (Str.all_digits _) with false by (symmetry; strings_tac).
  replace (Str.contains "UTC" _) with false by (symmetry; apply no_UTC; strings_tac).
  unfold parse_utc, run, rfc3339, format_wo_utc, date_time_prefix, format_wo_sec, finish.
  cbv zeta.
  destruct (valid (mkDT y mo dd h mi 0)) eqn:Hv;
    repeat (first [pstep | rewrite Hv]); cbv [ret]; cbn [option_map]; reflexivity.
Qed.

Lemma digits_acc_all s acc :
  Str.all_digits s = true ->
  digits_acc (String.length s) acc s = Some (decimal_value acc s, EmptyString).
Proof.
  revert acc. induction s as [|c s IH]; intros acc H; [reflexivity|].
  unfold Str.all_digits in H. cbn [Str.sforall] in H. apply andb_true_iff in H as [Hc Hs].
  cbn [String.length digits_acc decimal_value]. unfold bind at 1, any_char at 1. rewrite Hc.
  apply IH, Hs.
Qed.

Lemma digits_acc_suffix n acc s :
  Str.all_digits s = true ->
  digits_acc n acc s = None \/
  exists v r, digits_acc n acc s = Some (v, r) /\ Str.all_digits r = true.
Proof.
  revert acc s. induction n as [|n IH]; intros acc s H.
  - right. exists acc, s. split; [reflexivity|exact H].
  - destruct s as [|c s]; [left; reflexivity|].
    unfold Str.all_digits in H. cbn [Str.sforall] in H. apply andb_true_iff in H as [Hc Hs].
    assert (E : digits_acc (S n) acc (String c s) = digits_acc n (acc * 10 + Str.digit_val c) s)
      by (cbn [digits_acc]; unfold bind, any_char; rewrite Hc; reflexivity).
    rewrite E. apply IH, Hs.
Qed.

Lemma uint_acc_decimal d p :
  Zpos (Pos.of_uint_acc d p) = decimal_value (Zpos p) (NilEmpty.string_of_uint d).
Proof.
  revert p. induction d as [|d IH|d IH|d IH|d IH|d IH|d IH|d IH|d IH|d IH|d IH]; intros p;
    cbn [Pos.of_uint_acc NilEmpty.string_of_uint decimal_value]; [reflexivity| ..];
    rewrite IH; f_equal;
    match goal with |- context [Str.digit_val ?c] =>
      let v := eval vm_compute in (Str.digit_val c) in change (Str.digit_val c) with v end;
    rewrite ?Pos2Z.inj_add, Pos2Z.inj_mul; lia.
Qed.

Lemma uint_decimal d :
  Z.of_N (Pos.of_uint d) = decimal_value 0 (NilEmpty.string_of_uint d).
Proof.
  induction d as [|d IH|d IH|d IH|d IH|d IH|d IH|d IH|d IH|d IH|d IH];
    cbn [Pos.of_uint NilEmpty.string_of_uint decimal_value]; [reflexivity|exact IH| ..];
    cbn [Z.of_N]; rewrite uint_acc_decimal; reflexivity.
Qed.

Lemma uint_all_digits d : Str.all_digits (NilEmpty.string_of_uint d) = true.
Proof. induction d; exact IHd || reflexivity. Qed.

Lemma of_Z_pos p : Str.of_Z (Zpos p) = NilEmpty.string_of_uint (Pos.to_uint p).
Proof. reflexivity. Qed.

Lemma of_Z_value n : 0 <= n ->
  Str.all_digits (Str.of_Z n) = true /\ Str.of_Z n <> EmptyString /\
  decimal_value 0 (Str.of_Z n) = n.
Proof.
  intros Hn. destruct n as [|p|p]; [split; [reflexivity|split; [discriminate|reflexivity]] | | lia].
  rewrite of_Z_pos. split; [apply uint_all_digits|]. split.
  - pose proof (DecimalPos.Unsigned.to_uint_nonnil p) as Hnil.
    destruct (Pos.to_uint p); [contradiction|discriminate..].
  - rewrite <- uint_decimal, DecimalPos.Unsigned.of_to. reflexivity.
Qed.

(** [parse_timestamp] (src/util.rs) on a string of ASCII digits: the
    empty string gives [None]; otherwise the number the digits spell,
    when it fits in an [i64], and [None] beyond [i64::MAX]. *)
Theorem all_digits_epoch s :
  Str.all_digits s = true ->
  parse_timestamp s =
  (if String.eqb s EmptyString then None
   else if decimal_value 0 s <=? 9223372036854775807 then Some (decimal_value 0 s) else None).
Proof.
  intros H. unfold parse_timestamp. rewrite H. unfold parse_i64.
  destruct s as [|c r]; [reflexivity|]. cbn [String.eqb].
  unfold run, digits. rewrite digits_acc_all by exact H. reflexivity.
Qed.

Lemma year_neg s y r :
  Str.all_digits s = true -> year (String "-" s) = Some (y, r) -> Str.all_digits r = true.
Proof.
  intros Hs Hy. unfold year in Hy.
  rewrite (bind_eq _ _ (String "-" s) (Some "-"%char) s eq_refl) in Hy. cbv beta in Hy.
  unfold bind at 1, digits in Hy.
  destruct (digits_acc_suffix 4 0 s Hs) as [E | [v [r' [E Hr']]]]; rewrite E in Hy; [discriminate|].
  cbn in Hy. inversion Hy; subst. exact Hr'.
Qed.

Lemma lit_all_digits {A} c (k : unit -> Parser A) r :
  Str.is_digit c = false -> Str.all_digits r = true -> bind (lit c) k r = None.
Proof.
  intros Hc Hr. destruct r as [|c' r]; [reflexivity|].
  unfold Str.all_digits in Hr. cbn [Str.sforall] in Hr. apply andb_true_iff in Hr as [Hc' _].
  unfold bind, lit. destruct (Ascii.eqb_spec c c') as [<-|]; [congruence|reflexivity].
Qed.

(** [parse_timestamp] (src/util.rs) on the decimal rendering of an
    [i64]: a non-negative value is read back as itself; a negative one
    (whose [-] sign the digit test rejects) gives [None]. *)
Theorem printed_i64_parsed_back n :
  n <= 9223372036854775807 ->
  parse_timestamp (Str.of_Z n) = (if 0 <=? n then Some n else None).
Proof.
  intros Hmax. destruct (Z.leb_spec 0 n) as [Hn|Hn].
  - destruct (of_Z_value n Hn) as [Hd [Hne Hv]].
    rewrite all_digits_epoch by exact Hd. rewrite Hv.
    destruct (String.eqb_spec (Str.of_Z n) EmptyString); [contradiction|].
    replace (n <=? 9223372036854775807) with true by (symmetry; apply Z.leb_le; lia).
    reflexivity.
  - destruct n as [| |p]; [lia|lia|].
    change (Str.of_Z (Zneg p)) with (String "-" (NilEmpty.string_of_uint (Pos.to_uint p))).
    pose proof (uint_all_digits (Pos.to_uint p)) as Hd.
    set (u := NilEmpty.string_of_uint (Pos.to_uint p)) in *.
    unfold parse_timestamp. cbn [Str.all_digits Str.sforall]. change (Str.is_digit "-") with false.
    cbn [andb].
    replace (Str.contains "UTC" (String "-" u)) with false.
    2:{ symmetry. apply no_UTC. cbn [Str.sforall]. change (noU "-") with true. cbn [andb].
        apply (sforall_impl Str.is_digit); [char_tac | exact Hd]. }
    assert (Hr : rfc3339 (String "-" u) = None) by (unfold rfc3339; apply bind_none; reflexivity).
    assert (Hs : format_wo_sec (String "-" u) = None)
      by (unfold format_wo_sec; apply bind_none; reflexivity).
    assert (Hw : format_wo_utc (String "-" u) = None).
    { unfold format_wo_utc. apply bind_none. unfold date_time_prefix, bind at 1.
      destruct (year (String "-" u)) as [[y r]|] eqn:E; [|reflexivity].
      apply lit_all_digits; [reflexivity | exact (year_neg u y r Hd E)]. }
    unfold parse_utc, run. rewrite Hr, Hs, Hw. reflexivity.
Qed.

End TimestampTextFacts.

Module CdnExtra.
Import Cdn CdnFacts PathText.

Lemma strongly_sorted_unique l1 l2 :
  StronglySorted str_lt l1 -> StronglySorted str_lt l2 ->
  (forall x, In x l1 <-> In x l2) -> l1 = l2.
Proof.
  revert l2. induction l1 as [|a l1 IH]; intros l2 H1 H2 Hin.
  - destruct l2 as [|b l2]; [reflexivity|]. exfalso. apply (proj2 (Hin b)). left; reflexivity.
  - destruct l2 as [|b l2]; [exfalso; apply (proj1 (Hin a)); left; reflexivity|].
    apply StronglySorted_inv in H1 as [H1 F1]. apply StronglySorted_inv in H2 as [H2 F2].
    rewrite Forall_forall in F1, F2.
    assert (a = b) as <-.
    { destruct (proj1 (Hin a) (or_introl eq_refl)) as [|Ha]; [congruence|].
      destruct (proj2 (Hin b) (or_introl eq_refl)) as [|Hb]; [congruence|].
      exfalso. apply (str_lt_irrefl a). apply (str_lt_trans a b a); auto. }
    f_equal. apply IH; [exact H1 | exact H2 |]. intros x. split; intros Hx.
    + destruct (proj1 (Hin x) (or_intror Hx)) as [<-|]; [|assumption].
      exfalso. apply (str_lt_irrefl a). apply F1, Hx.
    + destruct (proj2 (Hin x) (or_intror Hx)) as [<-|]; [|assumption].
      exfalso. apply (str_lt_irrefl a). apply F2, Hx.
Qed.

(** The [sort] then [dedup] of [compile_cdn_list] (src/util.rs) depends
    only on the set of hosts: two lists with the same elements give the
    same result, and applying it twice changes nothing. *)
Theorem sort_dedup_set_determined l1 l2 :
  (forall x, In x l1 <-> In x l2) ->
  sort_dedup l1 = sort_dedup l2 /\ sort_dedup (sort_dedup l1) = sort_dedup l1.
Proof.
  intros H. destruct (sort_dedup_spec l1) as [S1 [_ I1]].
  destruct (sort_dedup_spec l2) as [S2 [_ I2]].
  destruct (sort_dedup_spec (sort_dedup l1)) as [S3 [_ I3]].
  split.
  - apply strongly_sorted_unique; [exact S1 | exact S2 |]. intros x. rewrite I1, I2. apply H.
  - apply strongly_sorted_unique; [exact S3 | exact S1 |]. intros x. rewrite I3. reflexivity.
Qed.


Lemma split_on_nonempty sep s : split_on sep s <> [].
Proof.
  induction s as [|c s IH]; [discriminate|]. cbn [split_on].
  destruct (split_on sep s); [contradiction|]. destruct (Ascii.eqb c sep); discriminate.
Qed.

Lemma split_on_app sep a b :
  split_on sep (a ++ String sep b) = (split_on sep a ++ split_on sep b)%list.
Proof.
  induction a as [|c a IH].
  - cbn [String.append split_on]. destruct (split_on sep b) eqn:E.
    + exfalso. exact (split_on_nonempty sep b E).
    + rewrite Ascii.eqb_refl. reflexivity.
  - cbn [String.append split_on]. rewrite IH.
    destruct (split_on sep a) as [|x xs] eqn:E; [exfalso; exact (split_on_nonempty sep a E)|].
    cbn [app]. destruct (Ascii.eqb c sep); reflexivity.
Qed.

Lemma split_on_no_sep sep s : no_char sep s = true -> split_on sep s = [s].
Proof.
  unfold no_char. induction s as [|c s IH]; [reflexivity|]. cbn [Str.sforall split_on].
  intros H. apply andb_prop in H as [Hc Hs]. rewrite (IH Hs).
  destruct (Ascii.eqb c sep); [discriminate|reflexivity].
Qed.

Lemma last_opt_snoc l x : last_opt (l ++ [x])%list = Some x.
Proof.
  induction l as [|a l IH]; [reflexivity|]. cbn [app last_opt].
  destruct (l ++ [x])%list eqn:E; [destruct l; discriminate|]. exact IH.
Qed.

Lemma file_name_last dir n :
  no_char "/" n = true -> normal_name n = true ->
  file_name n = Some n /\ file_name (dir ++ String "/" n) = Some n.
Proof.
  intros Hn Hok. unfold normal_name in Hok.
  apply andb_true_iff in Hok as [Hok H3]. apply andb_true_iff in Hok as [H1 H2].
  unfold file_name. rewrite split_on_app, !split_on_no_sep by exact Hn.
  rewrite filter_app. cbn [filter]. rewrite H1, H2. cbn [andb].
  rewrite last_opt_snoc. cbn [last_opt]. apply negb_true_iff in H3. rewrite H3. split; reflexivity.
Qed.

Lemma rsplit_dot_none s : no_char "." s = true -> rsplit_dot s = None.
Proof.
  unfold no_char. induction s as [|c s IH]; [reflexivity|]. cbn [Str.sforall rsplit_dot].
  intros H. apply andb_prop in H as [Hc Hs]. rewrite (IH Hs).
  destruct (Ascii.eqb c "."); [discriminate|reflexivity].
Qed.

Lemma rsplit_dot_last b e : no_char "." e = true -> rsplit_dot (b ++ String "." e) = Some (b, e).
Proof.
  intros He. induction b as [|c b IH].
  - cbn [String.append rsplit_dot]. rewrite rsplit_dot_none by exact He. reflexivity.
  - cbn [String.append rsplit_dot]. rewrite IH. reflexivity.
Qed.

Lemma no_char_app c a b : no_char c (a ++ b) = no_char c a && no_char c b.
Proof. unfold no_char. apply TimestampFacts.sforall_app. Qed.

Lemma extension_visible dir b e :
  no_char "/" b = true -> no_char "/" e = true -> no_char "." e = true ->
  b <> "" -> e <> "" ->
  extension (b ++ String "." e) = Some e /\
  extension (dir ++ String "/" (b ++ String "." e)) = Some e.
Proof.
  intros Hb He Hd Hbne Hene.
  assert (Hn1 : no_char "/" (b ++ String "." e) = true)
    by (rewrite no_char_app, Hb; exact He).
  assert (Hk1 : normal_name (b ++ String "." e) = true).
  { unfold normal_name. destruct b as [|c b]; [contradiction|].
    destruct (String.eqb_spec (String c b ++ String "." e) "") as [E|]; [discriminate|].
    destruct (String.eqb_spec (String c b ++ String "." e) ".") as [E|].
    { cbn in E. inversion E; subst. destruct b; discriminate. }
    destruct (String.eqb_spec (String c b ++ String "." e) "..") as [E|]; [|reflexivity].
    cbn in E. injection E as _ E. destruct b as [|c' b]; cbn in E.
    - injection E as E. exfalso. exact (Hene E).
    - injection E as _ E. destruct b; discriminate. }
  destruct (file_name_last dir _ Hn1 Hk1) as [F1 F2].
  unfold extension. rewrite F1, F2, rsplit_dot_last by exact Hd.
  destruct (String.eqb_spec b "") as [|_]; [contradiction|]. split; reflexivity.
Qed.

Lemma extension_hidden dir e :
  no_char "/" e = true -> no_char "." e = true -> e <> "" ->
  extension (String "." e) = None /\ extension (dir ++ String "/" (String "." e)) = None.
Proof.
  intros He Hd Hene.
  assert (Hk2 : normal_name (String "." e) = true).
  { unfold normal_name.
    destruct (String.eqb_spec (String "." e) "..") as [E|].
    { inversion E; subst. discriminate. }
    destruct e as [|c e]; [contradiction|]. reflexivity. }
  assert (Hn2 : no_char "/" (String "." e) = true) by exact He.
  destruct (file_name_last dir _ Hn2 Hk2) as [F3 F4].
  unfold extension. rewrite F3, F4.
  rewrite (rsplit_dot_last "" e Hd : rsplit_dot (String "." e) = Some ("", e)).
  split; reflexivity.
Qed.

(** [Path::extension] as [compile_cdn_list] (src/util.rs) uses it: the
    text after the last [.] of the file name, in the current directory
    or under one; a file name that starts with its only [.] has no
    extension. *)
Theorem extension_after_last_dot dir b e :
  no_char "/" b = true -> no_char "/" e = true -> no_char "." e = true ->
  b <> "" -> e <> "" ->
  extension (b ++ String "." e) = Some e /\
  extension (dir ++ String "/" (b ++ String "." e)) = Some e /\
  extension (String "." e) = None /\
  extension (dir ++ String "/" (String "." e)) = None.
Proof.
  intros Hb He Hd Hbne Hene.
  destruct (extension_visible dir b e Hb He Hd Hbne Hene) as [V1 V2].
  destruct (extension_hidden dir e He Hd Hene) as [H1 H2].
  repeat split; assumption.
Qed.

Lemma retain_no_nl s : no_char "010"%char (retain_not_ws s) = true.
Proof. unfold no_char. apply CdnClaims.retain_not_ws_no_nl. Qed.

(** [compile_cdn_list] (src/util.rs) with an override file named
    [.json], [.toml], [.yaml] or another [.e], in the current directory
    or under one: the name has no extension, so the file is read as plain
    text and its whitespace-free contents, unless empty, are one more
    host beside the built-in ones. *)
Theorem hidden_override_file_is_plain_text CDN_URLS from_json from_toml from_yaml fs dir e p t :
  no_char "/" e = true -> no_char "." e = true -> e <> "" ->
  (p = String "." e \/ p = dir ++ String "/" (String "." e)) -> fs p = Text t ->
  compile_cdn_list CDN_URLS from_json from_toml from_yaml fs (Some p) =
  Some (sort_dedup (CDN_URLS ++ (if String.eqb (retain_not_ws t) "" then []
                                 else [retain_not_ws t]))%list).
Proof.
  intros He Hd Hene Hp Ht.
  assert (Hx : extension p = None)
    by (destruct (extension_hidden dir e He Hd Hene); destruct Hp as [-> | ->]; assumption).
  unfold compile_cdn_list. rewrite Ht. cbn beta iota zeta. rewrite Hx. cbn beta iota.
  unfold lines. rewrite split_on_no_sep by apply retain_no_nl.
  reflexivity.
Qed.

End CdnExtra.

Module FixExtra.
Import Fix FixText FixFacts StrFacts.

Section Env.
Variable http_get : string -> option (Z * option string).
Variable parse_media_playlist_res : string -> option MediaPlaylist.
Variable sort_str_slice : list string -> list string.
Variables create_ok write_ok : string -> bool.

Lemma forall_bind {A B} (P : Effect -> Prop) (m : M A) (k : A -> M B) :
  Forall P (fst m) -> (forall a, Forall P (fst (k a))) -> Forall P (fst (mbind m k)).
Proof.
  intros Hm Hk. destruct m as [w [a|h]]; cbn [mbind]; [|exact Hm].
  specialize (Hk a). destruct (k a) as [w' r]. cbn [fst] in *. apply Forall_app; auto.
Qed.

Lemma forall_mret {A} P (a : A) : Forall P (fst (mret a)).
Proof. constructor. Qed.

Lemma forall_halt {A} P h : Forall P (fst (@halt A h)).
Proof. constructor. Qed.

Lemma forall_mapM {A B} P (f : A -> M B) l :
  (forall x, Forall P (fst (f x))) -> Forall P (fst (mapM f l)).
Proof.
  intros Hf. induction l as [|x l IH]; [constructor|]. cbn [mapM].
  apply forall_bind; [apply Hf|]. intros y. apply forall_bind; [exact IH|].
  intros ys. apply forall_mret.
Qed.

Lemma forall_index {A} P (v : list A) i : Forall P (fst (index v i)).
Proof. unfold index. destruct (nth_error v i); constructor. Qed.

Lemma forall_slice_end P s k : Forall P (fst (slice_end s k)).
Proof. unfold slice_end. destruct (_ <? _)%nat; [constructor|destruct (is_char_boundary _ _); constructor]. Qed.

Lemma forall_old_fetch P u :
  P (NetGet u) -> Forall P (fst (old_fetch http_get u)).
Proof.
  intros Hu. unfold old_fetch. rewrite bind_tell. cbn [fst]. constructor; [exact Hu|].
  destruct (http_get u) as [[st b]|]; [|constructor].
  destruct (st =? 403); [|constructor].
  apply forall_bind; [apply forall_slice_end|]. intros; apply forall_mret.
Qed.

Lemma forall_pair_segments P sorted segs i :
  Forall P (fst (pair_segments sorted segs i)).
Proof.
  revert i. induction segs as [|s segs IH]; intros i; [constructor|]. cbn [pair_segments].
  apply forall_bind; [apply forall_index|]. intros u.
  apply forall_bind; [apply IH|]. intros; apply forall_mret.
Qed.

Lemma forall_pattern_segment P b s : Forall P (fst (pattern_segment b s)).
Proof.
  unfold pattern_segment. destruct (Str.contains _ _); [|constructor].
  apply forall_bind; [apply forall_slice_end|]. intros; apply forall_mret.
Qed.

(** Where [fix] would write, read off the URL and the output option. *)
Lemma fix_file_targets url output old_method :
  Forall (fun e => forall p, file_target e = Some p ->
            p = match output with
                | Some q => q
                | None => "muted_" ++ nth 2 (fix_regex url) "" ++ ".m3u8"
                end)
         (fst (fix_ http_get parse_media_playlist_res sort_str_slice create_ok write_ok
                 url output old_method)).
Proof.
  set (target := match output with
                 | Some q => q
                 | None => "muted_" ++ nth 2 (fix_regex url) "" ++ ".m3u8"
                 end).
  set (P := fun e => forall p, file_target e = Some p -> p = target).
  assert (HN : forall u, P (NetGet u)) by (intros u p H; discriminate).
  unfold fix_. apply forall_bind.
  { destruct (negb _); [|constructor]. rewrite bind_tell. constructor; [|constructor].
    intros p H; discriminate. }
  intros _. apply forall_bind; [apply forall_index|]. intros p1.
  apply forall_bind; [apply forall_index|]. intros p2.
  apply forall_bind; [apply forall_index|]. intros p3.
  rewrite bind_tell. cbn [fst]. constructor; [apply HN|].
  apply forall_bind.
  { destruct (http_get url); constructor. }
  intros res. apply forall_bind.
  { destruct (snd res); constructor. }
  intros body. apply forall_bind.
  { destruct (parse_media_playlist_res body) as [pl|].
    - apply forall_bind; [|intros; apply forall_mret].
      destruct old_method.
      + unfold old_method_segments. apply forall_bind; [|intros; apply forall_pair_segments].
        apply forall_mapM. intros u. apply forall_old_fetch, HN.
      + apply forall_mapM. intros s. apply forall_pattern_segment.
    - rewrite bind_tell. constructor; [intros p H; discriminate|].
      cbn [fst]. constructor. }
  intros playlist.
  assert (Hpath : forall path, path = target ->
    Forall P (fst (let* _ := tell (FileCreate path) in
                   let* _ := (if create_ok path then mret tt else halt (Err Io)) in
                   let* _ := tell (FileWrite path playlist) in
                   if write_ok path then mret tt else halt (Err Io)))).
  { intros path ->. rewrite bind_tell. cbn [fst]. constructor.
    { intros p H. injection H as <-. reflexivity. }
    apply forall_bind; [destruct (create_ok target); constructor|]. intros _.
    rewrite bind_tell. cbn [fst]. constructor.
    { intros p H. injection H as <-. reflexivity. }
    destruct (write_ok target); constructor. }
  destruct output as [q|].
  - rewrite bind_ret. apply Hpath. reflexivity.
  - unfold index. destruct (nth_error (fix_regex url) 2) as [p|] eqn:E.
    + rewrite !bind_ret. apply Hpath. unfold target.
      rewrite (nth_error_nth _ _ "" E). reflexivity.
    + constructor.
Qed.

Lemma contains_app_l pat a b : Str.contains pat b = true -> Str.contains pat (a ++ b) = true.
Proof.
  intros H. induction a as [|c a IH]; [exact H|]. cbn [String.append Str.contains].
  rewrite IH. destruct (String.prefix _ _); reflexivity.
Qed.

Lemma substring_prefix a r : substring 0 (String.length a) (a ++ r) = a.
Proof. induction a as [|c a IH]; [destruct r; reflexivity|]. cbn. rewrite IH. reflexivity. Qed.

Lemma get_app_len p c r : String.get (String.length p) (p ++ String c r) = Some c.
Proof. induction p as [|x p IH]; [reflexivity|]. exact IH. Qed.

Lemma boundary_before_ascii p c r :
  (nat_of_ascii c < 128)%nat -> is_char_boundary (p ++ String c r) (String.length p) = true.
Proof.
  intros Hc. unfold is_char_boundary. destruct (String.length p =? 0)%nat; [reflexivity|].
  rewrite get_app_len. apply Nat.ltb_lt in Hc.
  destruct (128 <=? nat_of_ascii c)%nat eqn:E; [apply Nat.leb_le in E; apply Nat.ltb_lt in Hc; lia|].
  reflexivity.
Qed.

Lemma old_fetch_muted u k st b :
  (k <= String.length u)%nat -> http_get u = Some (st, b) -> st = 403 ->
  (if Str.contains "unmuted" u then 11%nat else 3%nat) = k ->
  is_char_boundary u (String.length u - k) = true ->
  old_fetch http_get u = ([NetGet u], inl (substring 0 (String.length u - k) u ++ "-muted.ts")).
Proof.
  intros Hk Hg Hst Hr Hb. unfold old_fetch. rewrite bind_tell. rewrite Hg, Hst. cbn [Z.eqb Pos.eqb].
  rewrite Hr. unfold slice_end.
  assert ((String.length u <? k)%nat = false) as -> by (apply Nat.ltb_ge; lia).
  rewrite Hb. reflexivity.
Qed.

(** The one request of the old method for a segment URL. *)
Theorem old_fetch_outcomes p b :
  (http_get (p ++ "-unmuted.ts") = Some (403, b) ->
     old_fetch http_get (p ++ "-unmuted.ts") =
       ([NetGet (p ++ "-unmuted.ts")], inl (p ++ "-muted.ts"))) /\
  (Str.contains "unmuted" (p ++ ".ts") = false -> http_get (p ++ ".ts") = Some (403, b) ->
     old_fetch http_get (p ++ ".ts") = ([NetGet (p ++ ".ts")], inl (p ++ "-muted.ts"))) /\
  (forall u st, http_get u = Some (st, b) -> st <> 403 ->
     old_fetch http_get u = ([NetGet u], inl u)) /\
  (forall u, http_get u = None -> old_fetch http_get u = ([NetGet u], inr Panic)).
Proof.
  split; [|split; [|split]].
  - intros Hg. rewrite (old_fetch_muted _ 11 403 b); [| rewrite length_app_s; cbn; lia
      | exact Hg | reflexivity | rewrite contains_app_l by reflexivity; reflexivity
      | rewrite length_app_s; cbn [String.length];
        replace (String.length p + 11 - 11)%nat with (String.length p) by lia;
        apply boundary_before_ascii; cbn; lia].
    rewrite length_app_s. cbn [String.length].
    replace (String.length p + 11 - 11)%nat with (String.length p) by lia.
    rewrite substring_prefix. reflexivity.
  - intros Hu Hg. rewrite (old_fetch_muted _ 3 403 b); [| rewrite length_app_s; cbn; lia
      | exact Hg | reflexivity | rewrite Hu; reflexivity
      | rewrite length_app_s; cbn [String.length];
        replace (String.length p + 3 - 3)%nat with (String.length p) by lia;
        apply boundary_before_ascii; cbn; lia].
    rewrite length_app_s. cbn [String.length].
    replace (String.length p + 3 - 3)%nat with (String.length p) by lia.
    rewrite substring_prefix. reflexivity.
  - intros u st Hg Hst. unfold old_fetch. rewrite bind_tell, Hg.
    apply Z.eqb_neq in Hst. rewrite Hst. reflexivity.
  - intros u Hg. unfold old_fetch. rewrite bind_tell, Hg. reflexivity.
Qed.

Ltac mstep :=
  repeat first
    [ rewrite bind_ret | rewrite bind_tell | rewrite bind_halt
    | progress cbv beta iota zeta ].

Lemma old_fetch_shape u :
  fst (old_fetch http_get u) = [NetGet u] /\
  ((exists f, snd (old_fetch http_get u) = inl f) \/ snd (old_fetch http_get u) = inr Panic).
Proof.
  unfold old_fetch. rewrite bind_tell. cbn [fst snd].
  destruct (http_get u) as [[st b]|]; [|split; [reflexivity|right; reflexivity]].
  destruct (st =? 403); [|split; [reflexivity|left; eexists; reflexivity]].
  unfold slice_end. destruct (_ <? _)%nat; [split; [reflexivity|right; reflexivity]|].
  destruct (is_char_boundary _ _); cbn;
    split; [reflexivity|left; eexists; reflexivity|reflexivity|right; reflexivity].
Qed.



Lemma mapM_old_fetch_panic urls :
  Exists (fun u => http_get u = None) urls ->
  exists w, mapM (old_fetch http_get) urls = (w, inr Panic) /\
            Forall (fun e => exists u, e = NetGet u) w.
Proof.
  induction 1 as [u urls Hg | u urls _ IH].
  - exists [NetGet u]. split; [|repeat constructor; eexists; reflexivity].
    cbn [mapM]. unfold old_fetch at 1. rewrite bind_tell, Hg. reflexivity.
  - destruct (old_fetch_shape u) as [Hw [[f Hf]|Hp]];
      destruct (old_fetch http_get u) as [w1 r1] eqn:E; cbn [fst snd] in *; subst.
    + destruct IH as [w [Hm Hw]]. exists (NetGet u :: w). split.
      * cbn [mapM]. rewrite E. cbn [mbind]. rewrite Hm. reflexivity.
      * constructor; [eexists; reflexivity|exact Hw].
    + exists [NetGet u]. split; [|repeat constructor; eexists; reflexivity].
      cbn [mapM]. rewrite E. reflexivity.
Qed.




Let run := fix_ http_get parse_media_playlist_res sort_str_slice create_ok write_ok.


(** The old method panics, after its requests and before creating any
    file, when a segment request gets no response. *)
Theorem old_method_transport_error_panics url output p0 p1 p2 p3 rest status body pl :
  (Str.contains "twitch.tv" url || Str.contains "cloudfront.net" url) = true ->
  fix_regex url = p0 :: p1 :: p2 :: p3 :: rest ->
  http_get url = Some (status, Some body) ->
  parse_media_playlist_res body = Some pl ->
  let base_url := ("https://" ++ p1 ++ "/" ++ p2 ++ "/" ++ p3 ++ "/")%string in
  Exists (fun s => http_get (base_url ++ uri s) = None) (segments pl) ->
  exists w, run url output true = (NetGet url :: w, inr Panic) /\
            Forall (fun e => exists u, e = NetGet u) w.
Proof.
  intros Hc Hp Hg Hparse base_url Hbad.
  destruct (mapM_old_fetch_panic (map (fun s => base_url ++ uri s) (segments pl)))
    as [w [Hm Hw]].
  { apply Exists_map. exact Hbad. }
  exists w. split; [|exact Hw].
  unfold run, fix_. rewrite Hc, Hp. cbn [negb].
  unfold index. cbn [nth_error]. mstep. rewrite Hg. mstep. cbn [snd]. mstep.
  rewrite Hparse. unfold old_method_segments. fold base_url. rewrite Hm.
  cbv [mbind]. reflexivity.
Qed.

End Env.

End FixExtra.

Module FixExtra2.
Import Fix FixText FixExtra StrFacts.

(** The only file [fix] creates or writes is the output path, or
    [muted_{c}.m3u8] with [c] the third component of the URL. *)
Theorem fix_writes_only_to http_get parse_media_playlist_res sort_str_slice create_ok write_ok
    url output old_method e p :
  In e (fst (fix_ http_get parse_media_playlist_res sort_str_slice create_ok write_ok
               url output old_method)) ->
  file_target e = Some p ->
  p = match output with
      | Some q => q
      | None => "muted_" ++ nth 2 (fix_regex url) "" ++ ".m3u8"
      end.
Proof.
  intros Hin Ht.
  pose proof (fix_file_targets http_get parse_media_playlist_res sort_str_slice create_ok
                write_ok url output old_method) as H.
  rewrite Forall_forall in H. exact (H e Hin p Ht).
Qed.

End FixExtra2.

Module CandidateFix.
Import Fix FixText FixExtra PathText CdnExtra StrFacts.








End CandidateFix.

Module ConfigFacts.
Import Config.

Lemma parse_usize_digits s :
  s <> "" -> Str.all_digits s = true -> TimestampText.decimal_value 0 s < 2 ^ 64 ->
  parse_usize s = Some (TimestampText.decimal_value 0 s).
Proof.
  intros Hne Hd Hv. unfold parse_usize.
  assert (Hsrc : match s with String "+" r => r | _ => s end = s).
  { destruct s as [|c r]; [reflexivity|].
    simpl in Hd. apply andb_prop in Hd as [Hc _].
    destruct c as [b0 b1 b2 b3 b4 b5 b6 b7];
      destruct b0, b1, b2, b3, b4, b5, b6, b7; try reflexivity; discriminate Hc. }
  rewrite Hsrc. destruct (String.eqb_spec s "") as [E|_]; [contradiction|].
  rewrite Hd. apply Z.ltb_lt in Hv. rewrite Hv. reflexivity.
Qed.

Lemma digits_not_u s : Str.all_digits s = true -> String.eqb s "u" || String.eqb s "U" = false.
Proof.
  intros Hd. destruct (String.eqb_spec s "u") as [->|_]; [discriminate|].
  destruct (String.eqb_spec s "U") as [->|_]; [discriminate|]. reflexivity.
Qed.

Lemma decimal_value_nonneg s acc :
  Str.all_digits s = true -> 0 <= acc -> 0 <= TimestampText.decimal_value acc s.
Proof.
  revert acc. induction s as [|c r IH]; intros acc Hd Ha; simpl; [lia|].
  simpl in Hd. apply andb_prop in Hd as [Hc Hr]. apply IH; [exact Hr|].
  unfold Str.is_digit in Hc. apply andb_prop in Hc as [Hc _].
  apply Nat.leb_le in Hc. unfold Str.digit_val. lia.
Qed.

(** Numeric menu choices ([Commands::from_selector] in src/config.rs):
    a string of ASCII digits with value [n] selects the variant at
    position [max(n-1, 0)] of [VARIANTS] with default fields, so [0] and
    [1] both give [Exact] and [8] gives [Update]; a value past the
    eighth entry (also one beyond [usize]) selects nothing. *)
Theorem from_selector_numeric s :
  s <> "" -> Str.all_digits s = true ->
  (TimestampText.decimal_value 0 s <= 8 ->
   from_selector s =
   from_str (nth (Z.to_nat (Z.max 0 (TimestampText.decimal_value 0 s - 1))) VARIANTS "")) /\
  (TimestampText.decimal_value 0 s = 8 -> from_selector s = Some Update) /\
  (9 <= TimestampText.decimal_value 0 s -> from_selector s = None).
Proof.
  intros Hne Hd. pose proof (decimal_value_nonneg s 0 Hd (Z.le_refl 0)) as Hnn.
  assert (Hsp : forall o, (match o with
      | Some variant => from_str variant
      | None => if String.eqb s "u" || String.eqb s "U" then Some Update else None
      end) = match o with Some variant => from_str variant | None => None end).
  { intros [|]; [reflexivity|]. rewrite (digits_not_u s Hd). reflexivity. }
  unfold from_selector.
  destruct (Z_lt_le_dec (TimestampText.decimal_value 0 s) (2 ^ 64)) as [Hb|Hb].
  - rewrite (parse_usize_digits s Hne Hd Hb). cbv zeta. rewrite Hsp.
    set (v := TimestampText.decimal_value 0 s) in *. clearbody v.
    assert (Hlen : List.length VARIANTS = 8%nat) by reflexivity.
    split; [|split].
    + intros Hv. rewrite (nth_error_nth' VARIANTS ""); [reflexivity|rewrite Hlen; lia].
    + intros ->. reflexivity.
    + intros Hv. replace (nth_error VARIANTS (Z.to_nat (Z.max 0 (v - 1)))) with (@None string);
        [reflexivity|]. symmetry. apply nth_error_None. rewrite Hlen. lia.
  - assert (Hp : parse_usize s = None).
    { unfold parse_usize.
      assert (Hsrc : match s with String "+" r => r | _ => s end = s).
      { destruct s as [|c r]; [reflexivity|].
        simpl in Hd. apply andb_prop in Hd as [Hc _].
        destruct c as [b0 b1 b2 b3 b4 b5 b6 b7];
          destruct b0, b1, b2, b3, b4, b5, b6, b7; try reflexivity; discriminate Hc. }
      rewrite Hsrc. destruct (String.eqb_spec s "") as [E|_]; [contradiction|].
      rewrite Hd. cbv zeta. replace (TimestampText.decimal_value 0 s <? 2 ^ 64) with false;
        [reflexivity|]. symmetry. apply Z.ltb_ge. exact Hb. }
    rewrite Hp, (digits_not_u s Hd). split; [|split]; intros; first [reflexivity | lia].
Qed.

(** Round trip of the menu ([main_interface] in src/interface.rs with
    [Commands::to_selector] and [from_selector]): the selector printed
    for the [i]-th entry, read back as a line ending in [\n] or
    [\r\n] and passed through [trim_newline], selects that entry. *)
Theorem menu_selector_round_trip i c :
  nth_error iter i = Some c ->
  from_selector (Interface.trim_newline (menu_selector i c ++ String "010"%char "")) = Some c /\
  from_selector (Interface.trim_newline
    (menu_selector i c ++ String "013"%char (String "010"%char ""))) = Some c.
Proof.
  intros H. do 8 (destruct i as [|i]; [injection H as <-; split; vm_compute; reflexivity|]).
  destruct i; discriminate H.
Qed.

End ConfigFacts.

Module InterfaceFacts.
Import Interface.

Lemma substring_skip_prefix a b n : substring (String.length a) n (a ++ b) = substring 0 n b.
Proof. induction a as [|c a IH]; simpl; [reflexivity|]. exact IH. Qed.

Lemma substring_app_l a b : substring 0 (String.length a) (a ++ b) = a.
Proof.
  induction a as [|c a IH]; simpl; [destruct b; reflexivity|]. rewrite IH. reflexivity.
Qed.

Lemma ends_with_snoc a c : Str.ends_with (String c "") (a ++ String c "") = true.
Proof.
  unfold Str.ends_with. rewrite StrFacts.length_app_s. simpl.
  replace (String.length a + 1 - 1)%nat with (String.length a) by lia.
  rewrite substring_skip_prefix. simpl. rewrite Ascii.eqb_refl.
  rewrite Nat.add_comm. reflexivity.
Qed.

Lemma drop_last a c :
  substring 0 (String.length (a ++ String c "") - 1) (a ++ String c "") = a.
Proof.
  rewrite StrFacts.length_app_s. simpl.
  replace (String.length a + 1 - 1)%nat with (String.length a) by lia.
  apply substring_app_l.
Qed.

(** [trim_newline] (src/interface.rs): it removes a final [\r\n], or a
    final [\n] not preceded by [\r], and leaves a string without a final
    [\n] as it is. *)
Theorem trim_newline_cases s :
  trim_newline (s ++ String "013"%char (String "010"%char "")) = s /\
  (Str.ends_with (String "013"%char "") s = false ->
   trim_newline (s ++ String "010"%char "") = s) /\
  (Str.ends_with (String "010"%char "") s = false -> trim_newline s = s).
Proof.
  split; [|split].
  - unfold trim_newline.
    replace (s ++ String "013"%char (String "010"%char ""))
      with ((s ++ String "013"%char "") ++ String "010"%char "")
      by (rewrite StrFacts.app_assoc_s; reflexivity).
    rewrite ends_with_snoc, drop_last, ends_with_snoc, drop_last. reflexivity.
  - intros H. unfold trim_newline. rewrite ends_with_snoc, drop_last, H. reflexivity.
  - intros H. unfold trim_newline. rewrite H. reflexivity.
Qed.

End InterfaceFacts.

Module ClipRunFacts.
Import Probe ClipRun.

Lemma clip_collect verbose net vod (l : list Z) :
  flat_map (fun p => match fst p with Some r => [r] | None => [] end)
    (map (fun u => clip_probe verbose u (net u)) (map (fun n => clip_url vod n) l)) =
  map (fun n => {| url := clip_url vod n; muted := false |})
    (filter (fun n => match net (clip_url vod n) with Some st => st =? 200 | None => false end) l).
Proof.
  induction l as [|n l IH]; simpl; [reflexivity|]. rewrite IH.
  destruct (net (clip_url vod n)) as [st|]; simpl; [|reflexivity].
  destruct (st =? 200); simpl; [reflexivity|]. destruct (st =? 403); reflexivity.
Qed.

(** [clip_bruteforce] (src/twitch/clips.rs): it always returns
    [Ok(Some(res))], where [res] lists, in increasing order of the
    offset, exactly the offsets of [start..end] whose clip URL answered
    status 200, each as an unmuted [ReturnURL]; a transport error or
    any other status drops the offset. *)
Theorem clip_bruteforce_hits verbose net vod start end_ :
  clip_bruteforce verbose net vod start end_ =
  Some (map (fun n => {| url := clip_url (Str.of_Z vod) n; muted := false |})
          (filter (fun n => match net (clip_url (Str.of_Z vod) n) with
                            | Some st => st =? 200 | None => false end)
                  (range start end_))).
Proof.
  unfold clip_bruteforce, clip_fetches, clip_urls. rewrite clip_collect. reflexivity.
Qed.

End ClipRunFacts.

Module TimestampTextExamples.
Import Timestamp TimestampText TimestampTextFacts.

(** 2022-07-15 09:49:56 UTC. *)
Definition sample_dt : DT := mkDT 2022 7 15 9 49 56.

(** [rfc3339_offset_ignored] at [sample_dt] with offset [+02:00]. *)
Lemma rfc3339_offset_ignored_witness :
  parse_timestamp (render_rfc3339 sample_dt (String "+" (zero_pad 2 2 ++ ":" ++ zero_pad 2 0))) =
    Some 1657878596 /\
  parse_timestamp (render_rfc3339 sample_dt "Z") = Some 1657878596.
Proof.
  destruct (rfc3339_offset_ignored sample_dt "+"%char 2 0 ltac:(vm_compute; reflexivity)
              (or_introl eq_refl) ltac:(lia) ltac:(lia)) as [H1 H2].
  rewrite H1, H2. split; vm_compute; reflexivity.
Defined.

(** [date_time_round_trip] at [sample_dt]. *)
Lemma date_time_round_trip_witness :
  parse_timestamp (render_date_time sample_dt "") = Some 1657878596 /\
  parse_timestamp (render_date_time sample_dt " UTC") = Some 1657878596.
Proof.
  destruct (date_time_round_trip sample_dt ltac:(vm_compute; reflexivity)) as [H1 H2].
  rewrite H1, H2. split; vm_compute; reflexivity.
Defined.

(** [wo_sec_round_trip] at [sample_dt]: the seconds are dropped. *)
Lemma wo_sec_round_trip_witness :
  parse_timestamp (render_wo_sec sample_dt) = Some 1657878540.
Proof.
  rewrite (wo_sec_round_trip sample_dt ltac:(vm_compute; reflexivity)).
  vm_compute. reflexivity.
Defined.

(** [all_digits_epoch] at an epoch and at [i64::MAX + 1]. *)
Lemma all_digits_epoch_witness :
  parse_timestamp "1622854217" = Some 1622854217 /\
  parse_timestamp "9223372036854775808" = None.
Proof.
  split.
  - rewrite (all_digits_epoch "1622854217" ltac:(vm_compute; reflexivity)).
    vm_compute. reflexivity.
  - rewrite (all_digits_epoch "9223372036854775808" ltac:(vm_compute; reflexivity)).
    vm_compute. reflexivity.
Defined.

(** [printed_i64_parsed_back] at [i64::MAX] and at [-5]. *)
Lemma printed_i64_parsed_back_witness :
  parse_timestamp (Str.of_Z 9223372036854775807) = Some 9223372036854775807 /\
  parse_timestamp (Str.of_Z (-5)) = None.
Proof.
  split.
  - rewrite (printed_i64_parsed_back 9223372036854775807 ltac:(lia)). reflexivity.
  - rewrite (printed_i64_parsed_back (-5) ltac:(lia)). reflexivity.
Defined.
End TimestampTextExamples.

Module CdnExtraExamples.
Import Cdn CdnExtra CdnClaims.

(** [sort_dedup_set_determined] at a list with a duplicate. *)
Lemma sort_dedup_set_determined_witness :
  sort_dedup ["b"; "a"; "b"] = sort_dedup ["a"; "b"] /\ sort_dedup ["a"; "b"] = ["a"; "b"].
Proof.
  destruct (sort_dedup_set_determined ["b"; "a"; "b"] ["a"; "b"]) as [H _].
  - intros x. simpl. tauto.
  - split; [exact H|vm_compute; reflexivity].
Defined.

(** [extension_after_last_dot] at [cdns.list.txt] and [conf/.txt]. *)
Lemma extension_after_last_dot_witness :
  extension "cdns.list.txt" = Some "txt" /\ extension "conf/.txt" = None.
Proof.
  destruct (extension_after_last_dot "conf" "cdns.list" "txt" ltac:(vm_compute; reflexivity)
              ltac:(vm_compute; reflexivity) ltac:(vm_compute; reflexivity)
              ltac:(discriminate) ltac:(discriminate)) as [H1 [_ [_ H4]]].
  split; [exact H1|exact H4].
Defined.

(** [hidden_override_file_is_plain_text] at [conf/.json] holding one
    host between spaces. *)
Lemma hidden_override_file_is_plain_text_witness :
  compile_cdn_list sample_cdns no_parse no_parse no_parse (file_fs " a.example.net  ")
    (Some "conf/.json") =
  Some (sort_dedup (sample_cdns ++ ["a.example.net"])%list).
Proof.
  rewrite (hidden_override_file_is_plain_text sample_cdns no_parse no_parse no_parse
             (file_fs " a.example.net  ") "conf" "json" "conf/.json" " a.example.net  "
             ltac:(vm_compute; reflexivity) ltac:(vm_compute; reflexivity) ltac:(discriminate)
             (or_intror eq_refl) eq_refl).
  vm_compute. reflexivity.
Defined.
End CdnExtraExamples.

Module FixExtraExamples.
Import Fix FixText FixExtra FixExtra2 FixClaims CandidateFix.

(** A server refusing the [unmuted] URLs with 403 and answering the others. *)
Definition old_net : string -> option (Z * option string) :=
  fun u => if Str.contains "unmuted" u then Some (403, None) else Some (200, Some "<html></html>").

(** [old_fetch_outcomes] at a 403 answer and at a transport error. *)
Lemma old_fetch_outcomes_witness :
  old_fetch old_net "https://h/a/b/c/1-unmuted.ts" =
    ([NetGet "https://h/a/b/c/1-unmuted.ts"], inl "https://h/a/b/c/1-muted.ts") /\
  old_fetch no_net "https://h/a/b/c/0.ts" = ([NetGet "https://h/a/b/c/0.ts"], inr Panic).
Proof.
  split.
  - apply (proj1 (old_fetch_outcomes old_net "https://h/a/b/c/1" None)). reflexivity.
  - apply (proj2 (proj2 (proj2 (old_fetch_outcomes no_net "https://h/a/b/c/0" None)))).
    reflexivity.
Defined.


(** [old_method_transport_error_panics] with only the playlist answered. *)
Lemma old_method_transport_error_panics_witness :
  exists w, fix_ (fun u => if String.eqb u vod_url then Some (200, Some "<html></html>") else None)
              (fun _ => Some three_segments) (fun l => l) always always vod_url None true =
            (NetGet vod_url :: w, inr Panic) /\
            Forall (fun e => exists u, e = NetGet u) w.
Proof.
  apply (old_method_transport_error_panics
           (fun u => if String.eqb u vod_url then Some (200, Some "<html></html>") else None)
           (fun _ => Some three_segments) (fun l => l) always always vod_url None "https:"
           "vod-secure.twitch.tv" "h_u_1_2" "chunked" ["index-dvr.m3u8"] 200 "<html></html>"
           three_segments); try (vm_compute; reflexivity).
  apply Exists_cons_hd. vm_compute. reflexivity.
Defined.

(** [fix_writes_only_to] at the file the pattern method creates. *)
Lemma fix_writes_only_to_witness :
  In (FileCreate "muted_h_u_1_2.m3u8")
     (fst (fix_ html_net (fun _ => Some three_segments) (fun l => l) always always
             vod_url None false)) /\
  "muted_h_u_1_2.m3u8" = "muted_" ++ nth 2 (fix_regex vod_url) "" ++ ".m3u8".
Proof.
  assert (Hin : In (FileCreate "muted_h_u_1_2.m3u8")
     (fst (fix_ html_net (fun _ => Some three_segments) (fun l => l) always always
             vod_url None false))) by (vm_compute; tauto).
  split; [exact Hin|].
  exact (fix_writes_only_to html_net (fun _ => Some three_segments) (fun l => l) always always
           vod_url None false _ _ Hin eq_refl).
Defined.


End FixExtraExamples.

Module ConfigExamples.
Import Config ConfigFacts Interface InterfaceFacts.

(** [from_selector_numeric] at [0], [7], [8] and [2^64]. *)
Lemma from_selector_numeric_witness :
  from_selector "0" = Some (Exact "" 0 "") /\ from_selector "7" = Some (Fix "" None false) /\
  from_selector "8" = Some Update /\ from_selector "18446744073709551616" = None.
Proof.
  split; [|split; [|split]].
  - apply (proj1 (from_selector_numeric "0" ltac:(discriminate) ltac:(reflexivity))).
    vm_compute. discriminate.
  - apply (proj1 (from_selector_numeric "7" ltac:(discriminate) ltac:(reflexivity))).
    vm_compute. discriminate.
  - apply (proj1 (proj2 (from_selector_numeric "8" ltac:(discriminate) ltac:(reflexivity)))).
    reflexivity.
  - apply (proj2 (proj2 (from_selector_numeric "18446744073709551616" ltac:(discriminate)
                           ltac:(reflexivity)))).
    vm_compute. discriminate.
Defined.

(** [menu_selector_round_trip] at the [Update] and [Link] entries. *)
Lemma menu_selector_round_trip_witness :
  from_selector (trim_newline (String "u" (String "010"%char ""))) = Some Update /\
  from_selector (trim_newline (String "3" (String "013"%char (String "010"%char "")))) =
    Some (Link "").
Proof.
  split.
  - apply (proj1 (menu_selector_round_trip 7 Update eq_refl)).
  - apply (proj2 (menu_selector_round_trip 2 (Link "") eq_refl)).
Defined.

(** [trim_newline_cases] at [y] with and without [\n]. *)
Lemma trim_newline_cases_witness :
  trim_newline (String "y" (String "010"%char "")) = "y" /\ trim_newline "y" = "y".
Proof.
  split.
  - apply (proj1 (proj2 (trim_newline_cases "y")) eq_refl).
  - apply (proj2 (proj2 (trim_newline_cases "y")) eq_refl).
Defined.
End ConfigExamples.
